(** * The study-abroad cost estimator of [server.js]

    A shallow embedding of [sampleTotalsFromInputs] and of the input
    coercion of the [POST /api/estimate] handler, with the properties
    of the Monte-Carlo estimator stated and proved over it.

    Number model.  A JavaScript number is modelled as a real number
    extended with [NaN], [+Infinity] and [-Infinity]; the arithmetic on
    finite values is exact, so the rounding error of binary64 and the
    sign of zero are not represented.  Everything that the code does
    with the special values (their propagation through [+], [-], [*],
    [Math.max], [Math.round], comparisons and [||]) is written out.

    Randomness.  [Math.random] reads a tape of reals, the successive
    values it would return; a computation that needs more draws than
    the tape holds yields [None]. *)

From Stdlib Require Import Reals Lra Lia ZArith List String Bool.
From Stdlib Require Import Sorting.Sorted Sorting.Permutation.
From Stdlib Require Import NArith Ascii.
Import ListNotations.

Local Open Scope R_scope.

(** ** JavaScript numbers *)

Module JsNum.

Inductive num : Type :=
| NaN
| NInf
| Fin (x : R)
| PInf.

Definition neg (a : num) : num :=
  match a with
  | NaN => NaN
  | NInf => PInf
  | Fin x => Fin (- x)
  | PInf => NInf
  end.

(** [a + b] *)
Definition add (a b : num) : num :=
  match a, b with
  | NaN, _ | _, NaN => NaN
  | PInf, NInf | NInf, PInf => NaN
  | PInf, _ | _, PInf => PInf
  | NInf, _ | _, NInf => NInf
  | Fin x, Fin y => Fin (x + y)
  end.

(** [a - b] *)
Definition sub (a b : num) : num := add a (neg b).

(** An infinity of the given sign times the finite [x]; [Infinity * 0]
    is [NaN]. *)
Definition inf_times (positive : bool) (x : R) : num :=
  if Rlt_dec 0 x then (if positive then PInf else NInf)
  else if Rlt_dec x 0 then (if positive then NInf else PInf)
  else NaN.

(** [a * b] *)
Definition mul (a b : num) : num :=
  match a, b with
  | NaN, _ | _, NaN => NaN
  | Fin x, Fin y => Fin (x * y)
  | PInf, PInf | NInf, NInf => PInf
  | PInf, NInf | NInf, PInf => NInf
  | PInf, Fin x | Fin x, PInf => inf_times true x
  | NInf, Fin x | Fin x, NInf => inf_times false x
  end.

(** [a <= b]: false as soon as one side is [NaN]. *)
Definition le (a b : num) : Prop :=
  match a, b with
  | NaN, _ | _, NaN => False
  | NInf, _ => True
  | _, PInf => True
  | Fin x, Fin y => x <= y
  | _, _ => False
  end.

(** [a < b] *)
Definition lt (a b : num) : Prop :=
  match a, b with
  | NaN, _ | _, NaN => False
  | NInf, NInf | PInf, PInf => False
  | NInf, _ => True
  | _, PInf => True
  | Fin x, Fin y => x < y
  | _, _ => False
  end.

(** [v > 0] as the test a sort makes on the value of its comparator. *)
Definition positive (v : num) : bool :=
  match v with
  | PInf => true
  | Fin x => if Rlt_dec 0 x then true else false
  | _ => false
  end.

(** [Math.max(a, b)] *)
Definition Math_max (a b : num) : num :=
  match a, b with
  | NaN, _ | _, NaN => NaN
  | PInf, _ | _, PInf => PInf
  | NInf, c | c, NInf => c
  | Fin x, Fin y => Fin (Rmax x y)
  end.

(** [Math.floor(a)] *)
Definition Math_floor (a : num) : num :=
  match a with
  | Fin x => Fin (IZR (Int_part x))
  | _ => a
  end.

(** [Math.round(a)]: the nearest integer, a tie going up. *)
Definition Math_round (a : num) : num :=
  match a with
  | Fin x => Fin (IZR (Int_part (x + / 2)))
  | _ => a
  end.

(** [Math.log(a)] *)
Definition Math_log (a : num) : num :=
  match a with
  | Fin x => if Rlt_dec x 0 then NaN
             else if Req_dec_T x 0 then NInf
             else Fin (ln x)
  | PInf => PInf
  | _ => NaN
  end.

(** [Math.sqrt(a)] *)
Definition Math_sqrt (a : num) : num :=
  match a with
  | Fin x => if Rlt_dec x 0 then NaN else Fin (sqrt x)
  | PInf => PInf
  | _ => NaN
  end.

(** [Math.cos(a)] *)
Definition Math_cos (a : num) : num :=
  match a with
  | Fin x => Fin (cos x)
  | _ => NaN
  end.

Definition Math_PI : num := Fin PI.

(** Truthiness of a number, as [||] tests it: [NaN] and [0] are falsy. *)
Definition truthy (a : num) : bool :=
  match a with
  | NaN => false
  | Fin x => if Req_dec_T x 0 then false else true
  | _ => true
  end.

(** [a || d] on numbers *)
Definition or_else (a d : num) : num := if truthy a then a else d.

Definition is_finite (a : num) : Prop :=
  match a with Fin _ => True | _ => False end.

Definition is_nan (a : num) : Prop :=
  match a with NaN => True | _ => False end.

(** [arr.length] *)
Definition length_of (l : list num) : num := Fin (INR (List.length l)).

(** [arr[i]] for a number [i]: the element when [i] is a non-negative
    integer below the length, [undefined] ([None]) otherwise. *)
Definition index (l : list num) (i : num) : option num :=
  match i with
  | Fin x =>
      if Rle_dec 0 x then
        if Req_dec_T x (IZR (Int_part x))
        then nth_error l (Z.to_nat (Int_part x))
        else None
      else None
  | _ => None
  end.

(** [Math.round(arr[i])]; [Math.round(undefined)] is [NaN]. *)
Definition round_at (l : list num) (i : num) : num :=
  match index l i with
  | Some x => Math_round x
  | None => NaN
  end.

End JsNum.

Import JsNum.

(** ** [Array.prototype.sort] with the comparator [(a, b) => a - b] *)

Module JsSort.

(** [(a, b) => a - b] *)
Definition comparefn (a b : num) : num := sub a b.

(** The sort is modelled as a stable insertion sort that consults only
    the sign of [comparefn]; a comparator value that is [NaN] counts as
    [0].  On an array without [NaN] every sorting algorithm returns the
    same array (see [sort_unique]), so the choice of the algorithm only
    shows when the sample holds a [NaN]. *)
Fixpoint insert (x : num) (l : list num) : list num :=
  match l with
  | [] => [x]
  | h :: t => if positive (comparefn x h) then h :: insert x t
              else x :: h :: t
  end.

Definition sort (l : list num) : list num := fold_right insert [] l.

End JsSort.

Import JsSort.

(** ** The source of randomness *)

Module Rand.

(** The values [Math.random] returns, in order. *)
Definition tape : Type := list R.

(** Computations that read the tape; [None] when the tape runs out. *)
Definition M (A : Type) : Type := tape -> option (A * tape).

Definition ret {A} (a : A) : M A := fun t => Some (a, t).

Definition bind {A B} (m : M A) (k : A -> M B) : M B :=
  fun t => match m t with
           | Some (a, t') => k a t'
           | None => None
           end.

(** [let u = 0; while (u === 0) u = Math.random();] : the first draw
    that is not zero. *)
Fixpoint redraw (t : tape) : option (R * tape) :=
  match t with
  | [] => None
  | x :: t' => if Req_dec_T x 0 then redraw t' else Some (x, t')
  end.

(** Every draw lies in the range of [Math.random], [0 <= u < 1]. *)
Definition uniform (t : tape) : Prop := Forall (fun u => 0 <= u < 1) t.

(** The draws that survive the zero guards. *)
Definition nonzero (t : tape) : list R :=
  filter (fun u => if Req_dec_T u 0 then false else true) t.

End Rand.

Import Rand.

Declare Scope rand_scope.
Delimit Scope rand_scope with rand.
Notation "x <- m ;; k" := (bind m (fun x => k))
  (at level 61, m at next level, right associativity) : rand_scope.

(** ** The estimator *)

(** The object the estimator receives; a field that is [undefined] is
    [None] and takes the default of the parameter list. *)
Record inputs : Type := mkInputs {
  tuition : option num;
  months : option num;
  rent : option num;
  food : option num;
  transport : option num;
  scholarship : option num
}.

(** The three percentiles the estimator returns. *)
Record summary : Type := mkSummary {
  p10 : num;
  median : num;
  p90 : num
}.

Definition dflt (d : num) (o : option num) : num :=
  match o with Some a => a | None => d end.

(** The box-muller factor [Math.sqrt(-2.0 * Math.log(u)) * Math.cos(2 * Math.PI * v)]. *)
Definition box_muller (u v : R) : num :=
  mul (Math_sqrt (mul (Fin (-2)) (Math_log (Fin u))))
      (Math_cos (mul (mul (Fin 2) Math_PI) (Fin v))).

(** The code of [src/server.js]. *)
Module ServerJs.

Local Open Scope rand_scope.

(** [randn_bm(mean, std)]; both arguments are given at every call, so
    the defaults [mean = 0, std = 1] are never taken. *)
Definition randn_bm (mean std : num) : M num :=
  fun t =>
    match redraw t with
    | None => None
    | Some (u, t1) =>
        match redraw t1 with
        | None => None
        | Some (v, t2) =>
            Some (add (mul (mul (Math_sqrt (mul (Fin (-2)) (Math_log (Fin u))))
                                (Math_cos (mul (mul (Fin 2) Math_PI) (Fin v))))
                           std)
                      mean, t2)
        end
    end.

Section Estimator.

Variable i : inputs.

Let tuition := dflt (Fin 0) i.(tuition).
Let months := dflt (Fin 12) i.(months).
Let rent := dflt (Fin 0) i.(rent).
Let food := dflt (Fin 0) i.(food).
Let transport := dflt (Fin 0) i.(transport).
Let scholarship := dflt (Fin 0) i.(scholarship).

Definition rentStd : num := Math_max (mul (Fin (1 / 10)) rent) (Fin 50).
Definition foodStd : num := Math_max (mul (Fin (15 / 100)) food) (Fin 20).
Definition transportStd : num := Math_max (mul (Fin (2 / 10)) transport) (Fin 10).

Definition sims : nat := 500.

(** One pass of the body of the [for] loop: the total it pushes. *)
Definition trial : M num :=
  r <- (x <- randn_bm rent rentStd ;; ret (Math_max (Fin 0) x)) ;;
  f <- (x <- randn_bm food foodStd ;; ret (Math_max (Fin 0) x)) ;;
  tr <- (x <- randn_bm transport transportStd ;; ret (Math_max (Fin 0) x)) ;;
  let utilities := Fin 70 in
  let misc := Fin 100 in
  let monthlyTotal := add (add (add (add r f) tr) utilities) misc in
  let livingTotal := mul monthlyTotal months in
  let oneTime := add (add (Fin 200) (Fin 800)) (Fin 500) in
  ret (sub (add (add tuition livingTotal) oneTime) scholarship).

(** [for (let i = 0; i < sims; i++) { ...; totals.push(...) }] with
    [n] passes left. *)
Fixpoint loop (n : nat) (totals : list num) : M (list num) :=
  match n with
  | O => ret totals
  | S n' => x <- trial ;; loop n' (totals ++ [x])
  end.

Definition sampleTotalsFromInputs : M summary :=
  totals <- loop sims [] ;;
  let totals := sort totals in
  ret {| p10 := round_at totals (Math_floor (mul (Fin (1 / 10)) (length_of totals)));
         median := round_at totals (Math_floor (mul (Fin (5 / 10)) (length_of totals)));
         p90 := round_at totals (Math_floor (mul (Fin (9 / 10)) (length_of totals))) |}.

End Estimator.

End ServerJs.

(** The code of [src/unnamed/part_000], the second copy of the server. *)
Module Part000.

Local Open Scope rand_scope.

Definition randn_bm (mean std : num) : M num :=
  fun t =>
    match redraw t with
    | None => None
    | Some (u, t1) =>
        match redraw t1 with
        | None => None
        | Some (v, t2) =>
            Some (add (mul (mul (Math_sqrt (mul (Fin (-2)) (Math_log (Fin u))))
                                (Math_cos (mul (mul (Fin 2) Math_PI) (Fin v))))
                           std)
                      mean, t2)
        end
    end.

Section Estimator.

Variable i : inputs.

Let tuition := dflt (Fin 0) i.(tuition).
Let months := dflt (Fin 12) i.(months).
Let rent := dflt (Fin 0) i.(rent).
Let food := dflt (Fin 0) i.(food).
Let transport := dflt (Fin 0) i.(transport).
Let scholarship := dflt (Fin 0) i.(scholarship).

Definition rentStd : num := Math_max (mul (Fin (1 / 10)) rent) (Fin 50).
Definition foodStd : num := Math_max (mul (Fin (15 / 100)) food) (Fin 20).
Definition transportStd : num := Math_max (mul (Fin (2 / 10)) transport) (Fin 10).

Definition sims : nat := 500.

Definition trial : M num :=
  r <- (x <- randn_bm rent rentStd ;; ret (Math_max (Fin 0) x)) ;;
  f <- (x <- randn_bm food foodStd ;; ret (Math_max (Fin 0) x)) ;;
  tr <- (x <- randn_bm transport transportStd ;; ret (Math_max (Fin 0) x)) ;;
  let utilities := Fin 70 in
  let misc := Fin 100 in
  let monthlyTotal := add (add (add (add r f) tr) utilities) misc in
  let livingTotal := mul monthlyTotal months in
  let oneTime := add (add (Fin 200) (Fin 800)) (Fin 500) in
  ret (sub (add (add tuition livingTotal) oneTime) scholarship).

Fixpoint loop (n : nat) (totals : list num) : M (list num) :=
  match n with
  | O => ret totals
  | S n' => x <- trial ;; loop n' (totals ++ [x])
  end.

Definition sampleTotalsFromInputs : M summary :=
  totals <- loop sims [] ;;
  let totals := sort totals in
  ret {| p10 := round_at totals (Math_floor (mul (Fin (1 / 10)) (length_of totals)));
         median := round_at totals (Math_floor (mul (Fin (5 / 10)) (length_of totals)));
         p90 := round_at totals (Math_floor (mul (Fin (9 / 10)) (length_of totals))) |}.

End Estimator.

End Part000.

(** ** The [POST /api/estimate] handler: coercion of the request body *)

Module Handler.

(** A value of the parsed JSON body; a missing property reads as
    [JUndefined].  An object is the list of its own properties. *)
#[warnings="-register-all"]
Inductive jsval : Type :=
| JUndefined
| JNull
| JBool (b : bool)
| JNum (n : num)
| JStr (s : string)
| JArr (l : list jsval)
| JObj (fields : list (string * jsval)).

(** [v.k] for one of the keys the handler reads: only an object of the
    body has such a property. *)
Definition get (v : jsval) (k : string) : jsval :=
  match v with
  | JObj fields =>
      match find (fun kv => String.eqb (fst kv) k) fields with
      | Some kv => snd kv
      | None => JUndefined
      end
  | _ => JUndefined
  end.

(** [v?.k] *)
Definition opt_get (v : jsval) (k : string) : jsval :=
  match v with
  | JUndefined | JNull => JUndefined
  | _ => get v k
  end.

(** Truthiness of a value, for [req.body || {}]. *)
Definition truthy_val (v : jsval) : bool :=
  match v with
  | JUndefined | JNull => false
  | JBool b => b
  | JNum n => truthy n
  | JStr s => negb (String.eqb s EmptyString)
  | JArr _ | JObj _ => true
  end.

(** [req.body || {}] *)
Definition body_of (req_body : jsval) : jsval :=
  if truthy_val req_body then req_body else JObj [].

(** What the handler answers: status 500, or the response with the
    three percentiles. *)
Inductive outcome : Type :=
| ServerError
| Estimated (s : summary).

Section Coercion.

(** The conversions of the language that the source does not spell
    out: the number a string denotes, and the string an array or an
    object converts to ([None] when the conversion throws a
    [TypeError]). *)
Variable StringToNumber : string -> num.
Variable ToPrimitive : jsval -> option string.

(** [Number(v)] *)
Definition Number (v : jsval) : option num :=
  match v with
  | JUndefined => Some NaN
  | JNull => Some (Fin 0)
  | JBool b => Some (if b then Fin 1 else Fin 0)
  | JNum n => Some n
  | JStr s => Some (StringToNumber s)
  | JArr _ | JObj _ =>
      match ToPrimitive v with
      | Some s => Some (StringToNumber s)
      | None => None
      end
  end.

(** [Number(v) || d] *)
Definition coerce (v : jsval) (d : num) : option num :=
  match Number v with
  | Some n => Some (or_else n d)
  | None => None
  end.

(** The [inputs] object the handler builds from [req.body]; [None]
    when a conversion throws, which the handler answers with status
    500. *)
Definition handler_inputs (req_body : jsval) : option inputs :=
  let body := body_of req_body in
  match coerce (get body "tuition") (Fin 0) with None => None | Some tuition =>
  match coerce (get body "months") (Fin 12) with None => None | Some months =>
  match coerce (opt_get (get body "monthly") "rent") (Fin 0) with None => None | Some rent =>
  match coerce (opt_get (get body "monthly") "food") (Fin 0) with None => None | Some food =>
  match coerce (opt_get (get body "monthly") "transport") (Fin 0) with None => None | Some transport =>
  match coerce (get body "scholarship") (Fin 0) with None => None | Some scholarship =>
    Some {| tuition := Some tuition; months := Some months; rent := Some rent;
            food := Some food; transport := Some transport;
            scholarship := Some scholarship |}
  end end end end end end.

(** What [Number(v) || d] leaves in a field: a number that is not
    [NaN]; the default when [v] is missing or converts to [NaN] or to
    0, the converted number itself in every other case. *)
Definition coerced (v : jsval) (d : num) (field : option num) : Prop :=
  exists n x,
    Number v = Some n /\ field = Some x /\
    ~ is_nan x /\
    (v = JUndefined -> x = d) /\
    (is_nan n \/ n = Fin 0 -> x = d) /\
    (~ is_nan n -> n <> Fin 0 -> x = n).

(** The conversion of [v] throws. *)
Definition throws (v : jsval) : Prop := Number v = None.

(** The handler up to the percentiles it puts in the response. *)
Definition estimate_route (req_body : jsval) : M outcome :=
  match handler_inputs req_body with
  | None => ret ServerError
  | Some inputs =>
      bind (ServerJs.sampleTotalsFromInputs inputs)
           (fun totals => ret (Estimated totals))
  end.

End Coercion.

(** Request bodies used as examples. *)
Definition negative_body : jsval :=
  JObj [("tuition"%string, JNum (Fin (-5)))].

Definition negative_months_body : jsval :=
  JObj [("months"%string, JNum (Fin (-3)))].

Definition infinite_body : jsval :=
  JObj [("tuition"%string, JNum PInf); ("scholarship"%string, JNum PInf)].

Definition zero_body : jsval :=
  JObj [("months"%string, JNum (Fin 0)); ("monthly"%string, JNull)].

(** Stand-ins for the two conversions where an example body holds no
    string, array or object to convert. *)
Definition no_string : string -> num := fun _ => NaN.
Definition no_object : jsval -> option string := fun _ => None.

End Handler.

(** ** The estimator as the specification words it *)

Module Spec.

(** The uniform draws one trial consumes: a pair for each of rent,
    food and transport. *)
Definition draws : Type := (R * R * R * R * R * R)%type.

(** The zero-free draws cut into the groups of six of the successive
    trials. *)
Fixpoint sixes (l : list R) : list draws :=
  match l with
  | u1 :: v1 :: u2 :: v2 :: u3 :: v3 :: rest =>
      (u1, v1, u2, v2, u3, v3) :: sixes rest
  | _ => []
  end.

(** [sqrt(-2 ln u) cos(2 pi v) std + mean] *)
Definition normal_variate (mean std : num) (u v : R) : num :=
  add (mul (Fin (sqrt (-2 * ln u) * cos (2 * PI * v))) std) mean.

Definition rent_std (rent : num) : num := Math_max (mul (Fin (1 / 10)) rent) (Fin 50).
Definition food_std (food : num) : num := Math_max (mul (Fin (15 / 100)) food) (Fin 20).
Definition transport_std (transport : num) : num :=
  Math_max (mul (Fin (2 / 10)) transport) (Fin 10).

Definition tuition_of (i : inputs) : num := dflt (Fin 0) i.(tuition).
Definition months_of (i : inputs) : num := dflt (Fin 12) i.(months).
Definition rent_of (i : inputs) : num := dflt (Fin 0) i.(rent).
Definition food_of (i : inputs) : num := dflt (Fin 0) i.(food).
Definition transport_of (i : inputs) : num := dflt (Fin 0) i.(transport).
Definition scholarship_of (i : inputs) : num := dflt (Fin 0) i.(scholarship).

(** [tuition + (max(0, rentDraw) + max(0, foodDraw) + max(0, transportDraw)
    + 70 + 100) * months + 1500 - scholarship] *)
Definition trial_total (i : inputs) (d : draws) : num :=
  let '(u1, v1, u2, v2, u3, v3) := d in
  let rentDraw := normal_variate (rent_of i) (rent_std (rent_of i)) u1 v1 in
  let foodDraw := normal_variate (food_of i) (food_std (food_of i)) u2 v2 in
  let transportDraw :=
    normal_variate (transport_of i) (transport_std (transport_of i)) u3 v3 in
  sub (add (add (tuition_of i)
                (mul (add (add (add (add (Math_max (Fin 0) rentDraw)
                                         (Math_max (Fin 0) foodDraw))
                                    (Math_max (Fin 0) transportDraw))
                               (Fin 70))
                          (Fin 100))
                     (months_of i)))
           (Fin 1500))
      (scholarship_of i).

(** [tuition + (70 + 100) * months + 1500 - scholarship] *)
Definition floor_total (i : inputs) : num :=
  sub (add (add (tuition_of i) (mul (add (Fin 70) (Fin 100)) (months_of i)))
           (Fin 1500))
      (scholarship_of i).

(** The input with [delta] added to its tuition, the rest unchanged. *)
Definition raise_tuition (i : inputs) (delta : num) : inputs :=
  {| tuition := Some (add (tuition_of i) delta);
     months := i.(months); rent := i.(rent); food := i.(food);
     transport := i.(transport); scholarship := i.(scholarship) |}.

(** All six fields are finite numbers. *)
Definition finite_inputs (i : inputs) : Prop :=
  is_finite (tuition_of i) /\ is_finite (months_of i) /\ is_finite (rent_of i) /\
  is_finite (food_of i) /\ is_finite (transport_of i) /\ is_finite (scholarship_of i).

(** No element is [NaN]. *)
Definition no_nan (l : list num) : Prop := Forall (fun a => ~ is_nan a) l.

(** What the comparator leaves between two neighbours of a sorted
    array: [comparefn a b] is not positive. *)
Definition not_above (a b : num) : Prop := positive (comparefn a b) = false.

(** A tape without zero that holds the draws of [n] trials. *)
Definition half_tape (n : nat) : tape := repeat (1 / 2) (6 * n).

(** The value one pass of the loop computes from its six draws, with
    the operations of the code on arbitrary draws. *)
Definition clamped (mean std : num) (u v : R) : num :=
  Math_max (Fin 0) (add (mul (box_muller u v) std) mean).

Definition raw_total (i : inputs) (d : draws) : num :=
  let '(u1, v1, u2, v2, u3, v3) := d in
  let r := clamped (rent_of i) (rent_std (rent_of i)) u1 v1 in
  let f := clamped (food_of i) (food_std (food_of i)) u2 v2 in
  let tr := clamped (transport_of i) (transport_std (transport_of i)) u3 v3 in
  sub (add (add (tuition_of i)
                (mul (add (add (add (add r f) tr) (Fin 70)) (Fin 100)) (months_of i)))
           (add (add (Fin 200) (Fin 800)) (Fin 500)))
      (scholarship_of i).

(** The same total on real fields. *)
Definition real_variate (mean std u v : R) : R :=
  sqrt (-2 * ln u) * cos (2 * PI * v) * std + mean.

Definition real_total (T m r f tr s : R) (d : draws) : R :=
  let '(u1, v1, u2, v2, u3, v3) := d in
  T + (Rmax 0 (real_variate r (Rmax (1 / 10 * r) 50) u1 v1)
       + Rmax 0 (real_variate f (Rmax (15 / 100 * f) 20) u2 v2)
       + Rmax 0 (real_variate tr (Rmax (2 / 10 * tr) 10) u3 v3)
       + 70 + 100) * m
    + 1500 - s.

(** The rounded element of index [k], [NaN] when there is none. *)
Definition rounded_nth (l : list num) (k : nat) : num :=
  match nth_error l k with
  | Some x => Math_round x
  | None => NaN
  end.

(** The draws lie strictly between 0 and 1. *)
Definition open_unit (d : draws) : Prop :=
  let '(u1, v1, u2, v2, u3, v3) := d in
  0 < u1 < 1 /\ 0 < v1 < 1 /\ 0 < u2 < 1 /\ 0 < v2 < 1 /\ 0 < u3 < 1 /\ 0 < v3 < 1.

(** The input of the concrete scenario of the specification. *)
Definition sample_input : inputs :=
  {| tuition := Some (Fin 20000); months := Some (Fin 12);
     rent := Some (Fin 800); food := Some (Fin 400);
     transport := Some (Fin 100); scholarship := Some (Fin 5000) |}.

(** The input the handler builds from the body
    [{"tuition": 1e999, "scholarship": 1e999}], whose two numbers parse
    to [Infinity]. *)
Definition infinite_input : inputs :=
  {| tuition := Some PInf; months := Some (Fin 12);
     rent := Some (Fin 0); food := Some (Fin 0);
     transport := Some (Fin 0); scholarship := Some PInf |}.

(** A tape on which both zero guards of [randn_bm] redraw. *)
Definition guarded_tape : tape := [0; 1 / 2; 0; 0; 1 / 4].

(** An integer-valued finite number. *)
Definition is_integer (a : num) : Prop := exists z : Z, a = Fin (IZR z).

End Spec.

Import Spec.

(** ** The text of an answer and the fallback of the recommendations *)

Module Text.

Local Open Scope N_scope.

(** A string of the language: its UTF-16 code units. *)
Definition text : Type := list N.

(** The code units of a literal of ASCII characters. *)
Definition units (s : string) : text := map N_of_ascii (list_ascii_of_string s).

(** White space and line terminators: what [trim] removes and what
    [\s] matches. *)
Definition is_space (c : N) : bool :=
  existsb (N.eqb c) [9; 10; 11; 12; 13; 32; 160; 5760; 8232; 8233; 8239; 8287;
                     12288; 65279]
  || ((8192 <=? c) && (c <=? 8202)).

(** [\d] *)
Definition is_digit (c : N) : bool := (48 <=? c) && (c <=? 57).

(** [[\.\)]] *)
Definition is_mark (c : N) : bool := (c =? 46) || (c =? 41).

Fixpoint drop_space (s : text) : text :=
  match s with
  | [] => []
  | c :: r => if is_space c then drop_space r else s
  end.

Fixpoint drop_digits (s : text) : text :=
  match s with
  | [] => []
  | c :: r => if is_digit c then drop_digits r else s
  end.

(** [s.trim()] *)
Definition trim (s : text) : text := rev (drop_space (rev (drop_space s))).

(** [s.split(/\r?\n/)], reading [s] after the characters [cur] (last
    one first) of the piece under way: a line feed ends the piece, less
    the carriage return that stands right before it. *)
Fixpoint split_lines (cur : text) (s : text) : list text :=
  match s with
  | [] => [rev cur]
  | c :: rest =>
      if c =? 10
      then rev (match cur with
                | 13 :: cur' => cur'
                | _ => cur
                end) :: split_lines [] rest
      else split_lines (c :: cur) rest
  end.

Definition split (s : text) : list text := split_lines [] s.

(** [Boolean(s)] on a string *)
Definition nonempty (s : text) : bool :=
  match s with
  | [] => false
  | _ :: _ => true
  end.

(** [l.replace(/^\d+[\.\)]\s*/, "")] : a leading run of digits, one
    mark and the white space after it are removed; a line that does not
    start so is left as it is. *)
Definition strip_number (l : text) : text :=
  match l with
  | c :: _ =>
      if is_digit c then
        match drop_digits l with
        | m :: rest => if is_mark m then drop_space rest else l
        | [] => l
        end
      else l
  | [] => l
  end.

(** [text.split(/\r?\n/).map(s => s.trim()).filter(Boolean)] *)
Definition lines_of (s : text) : list text :=
  filter nonempty (map trim (split s)).

(** No white space at either end. *)
Definition trimmed (s : text) : Prop :=
  match s with [] => True | c :: _ => is_space c = false end /\
  match rev s with [] => True | c :: _ => is_space c = false end.

End Text.

Import Text.

(** ** The recommendations *)

(** One entry of the [recommendations] array: an element of the parsed
    answer, or a string. *)
Inductive tip : Type :=
| Parsed (v : Handler.jsval)
| Line (s : text).

(** How the optional call of the text service ends, up to
    [aiResultText]: no package or no key, a call that throws, or an
    answer whose text is [content] ([None] for [null] and
    [undefined]). *)
Inductive ai_result : Type :=
| NotConfigured
| CallFailed
| Answered (content : option text).

(** The recommendations of [src/server.js]. *)
Module ServerTips.

Definition default : list tip :=
  [ Line (units "Consider shared housing (could reduce rent by ~25" ++ [8211%N]
          ++ units "40%).");
    Line (units "Apply for university / local scholarships early.");
    Line (units "Cook at home to reduce food costs.");
    Line (units "Look for on-campus part-time roles if eligible.");
    Line (units "Shop around for student travel/health insurance.") ].

Section Parse.

(** [JSON.parse]; [None] when it throws. *)
Variable JSON_parse : text -> option Handler.jsval.

Definition recommendations (ai : ai_result) : list tip :=
  match ai with
  | Answered (Some aiResultText) =>
      if nonempty aiResultText then
        match JSON_parse aiResultText with
        | Some (Handler.JArr (v :: parsed)) => map Parsed (v :: parsed)
        | Some _ => default
        | None =>
            let lines := lines_of aiResultText in
            match lines with
            | _ :: _ => map (fun l => Line (strip_number l)) (firstn 5 lines)
            | [] => default
            end
        end
      else default
  | _ => default
  end.

End Parse.

End ServerTips.

(** The recommendations of [src/unnamed/part_000]. *)
Module Part000Tips.

Definition default : list tip :=
  [ Line (units "Consider shared housing (reduce rent by 25" ++ [8211%N]
          ++ units "40%).");
    Line (units "Apply early for university or local scholarships.");
    Line (units "Cook at home to save 30" ++ [8211%N] ++ units "50% on food costs.");
    Line (units "Look for part-time campus jobs if eligible.");
    Line (units "Compare travel/health insurance for student discounts.") ].

Section Parse.

Variable JSON_parse : text -> option Handler.jsval.

Definition recommendations (ai : ai_result) : list tip :=
  match ai with
  | Answered (Some aiText) =>
      if nonempty aiText then
        match JSON_parse aiText with
        | Some (Handler.JArr parsed) => map Parsed parsed
        | Some _ => default
        | None =>
            let lines := lines_of aiText in
            match lines with
            | _ :: _ => map Line (firstn 5 lines)
            | [] => default
            end
        end
      else default
  | _ => default
  end.

End Parse.

End Part000Tips.

(** ** The response of the handler *)

Module Reply.

(** The [estimate] object of the response. *)
Record estimate : Type := mkEstimate {
  est_tuition : num;
  living_median : num;
  one_time : num;
  scholarships : num;
  total_median : num;
  total_p10 : num;
  total_p90 : num;
  est_months : num
}.

Record response : Type := mkResponse {
  currency : string;
  estimate_of : estimate;
  breakdown : list (string * num);
  recommendations : list tip
}.

(** What the handler sends: status 500, or the response as JSON. *)
Inductive reply : Type :=
| Status500
| Json (r : response).

(** [Math.round((rent + food + transport + 70 + 100) * months)] on the
    object the handler has built, all of whose fields are present. *)
Definition livingMedian (i : inputs) : num :=
  Math_round (mul (add (add (add (add (rent_of i) (food_of i)) (transport_of i))
                            (Fin 70))
                       (Fin 100))
                  (months_of i)).

Definition response_of (i : inputs) (totals : summary) (recs : list tip) : response :=
  let oneTime := add (add (Fin 200) (Fin 800)) (Fin 500) in
  {| currency := "USD";
     estimate_of :=
       {| est_tuition := Math_round (tuition_of i);
          living_median := livingMedian i;
          one_time := oneTime;
          scholarships := neg (Math_round (scholarship_of i));
          total_median := totals.(median);
          total_p10 := totals.(p10);
          total_p90 := totals.(p90);
          est_months := months_of i |};
     breakdown :=
       [ ("Tuition"%string, Math_round (tuition_of i));
         ("Living (median)"%string, livingMedian i);
         ("One-time"%string, oneTime);
         ("Scholarships"%string, neg (Math_round (scholarship_of i))) ];
     recommendations := recs |}.

Section Route.

Variable StringToNumber : string -> num.
Variable ToPrimitive : Handler.jsval -> option string.
Variable JSON_parse : text -> option Handler.jsval.

(** The handler of [src/server.js]: the body is coerced, the estimator
    run, the text service consulted, the response sent; a conversion
    that throws is answered with status 500. *)
Definition handler (req_body : Handler.jsval) (ai : ai_result) : M reply :=
  match Handler.handler_inputs StringToNumber ToPrimitive req_body with
  | None => ret Status500
  | Some inputs =>
      bind (ServerJs.sampleTotalsFromInputs inputs)
           (fun totals =>
              ret (Json (response_of inputs totals
                                     (ServerTips.recommendations JSON_parse ai))))
  end.

End Route.

End Reply.

(** ** Further inputs, bodies and texts of the statements below *)

(** The input with [delta] added to its scholarship, the rest
    unchanged. *)
Definition raise_scholarship (i : inputs) (delta : num) : inputs :=
  {| tuition := i.(tuition); months := i.(months); rent := i.(rent);
     food := i.(food); transport := i.(transport);
     scholarship := Some (add (scholarship_of i) delta) |}.

(** The sample scenario over zero months. *)
Definition zero_months_input : inputs :=
  {| tuition := Some (Fin 20000); months := Some (Fin 0);
     rent := Some (Fin 800); food := Some (Fin 400);
     transport := Some (Fin 100); scholarship := Some (Fin 5000) |}.

(** The request body that spells out the fields of [i]. *)
Definition body_of_inputs (i : inputs) : Handler.jsval :=
  Handler.JObj
    [ ("tuition"%string, Handler.JNum (tuition_of i));
      ("months"%string, Handler.JNum (months_of i));
      ("monthly"%string,
       Handler.JObj [ ("rent"%string, Handler.JNum (rent_of i));
                      ("food"%string, Handler.JNum (food_of i));
                      ("transport"%string, Handler.JNum (transport_of i)) ]);
      ("scholarship"%string, Handler.JNum (scholarship_of i)) ].

(** The input with its months replaced by [m]. *)
Definition with_months (i : inputs) (m : num) : inputs :=
  {| tuition := i.(tuition); months := Some m; rent := i.(rent);
     food := i.(food); transport := i.(transport);
     scholarship := i.(scholarship) |}.

(** A string taken from the lines of an answer as [part_000] keeps
    them: not empty, no white space at either end, no line feed. *)
Definition clean_line (tp : tip) : Prop :=
  exists l, tp = Line l /\ l <> [] /\ trimmed l /\ ~ In 10%N l.

(** An input one of whose tuition and scholarship is [NaN], or both
    of which are [Infinity]. *)
Definition poisoned (i : inputs) : Prop :=
  is_nan (tuition_of i) \/ is_nan (scholarship_of i) \/
  (tuition_of i = PInf /\ scholarship_of i = PInf).

(** The end of the estimator: the sample is sorted and the three
    rounded elements are returned. *)
Definition summary_of (totals : list num) : summary :=
  let totals := sort totals in
  {| p10 := round_at totals (Math_floor (mul (Fin (1 / 10)) (length_of totals)));
     median := round_at totals (Math_floor (mul (Fin (5 / 10)) (length_of totals)));
     p90 := round_at totals (Math_floor (mul (Fin (9 / 10)) (length_of totals))) |}.

(** [p10 <= median <= p90] *)
Definition ordered (s : summary) : Prop :=
  le (p10 s) (median s) /\ le (median s) (p90 s).

(** No percentile of [s'] is below the same percentile of [s]. *)
Definition not_lower (s s' : summary) : Prop :=
  le (p10 s) (p10 s') /\ le (median s) (median s') /\ le (p90 s) (p90 s').

(** [monthlyTotal] of one pass: [r + f + tr + utilities + misc] on the
    clamped draws. *)
Definition monthly (i : inputs) (d : draws) : num :=
  let '(u1, v1, u2, v2, u3, v3) := d in
  let r := clamped (rent_of i) (rent_std (rent_of i)) u1 v1 in
  let f := clamped (food_of i) (food_std (food_of i)) u2 v2 in
  let tr := clamped (transport_of i) (transport_std (transport_of i)) u3 v3 in
  add (add (add (add r f) tr) (Fin 70)) (Fin 100).

(** [tuition + livingTotal + oneTime - scholarship] for a tuition, a
    living total and a scholarship. *)
Definition total_of (tuition livingTotal scholarship : num) : num :=
  sub (add (add tuition livingTotal) (Fin 1500)) scholarship.

(** A number that is whole unless it is [NaN] or infinite. *)
Definition whole_if_finite (a : num) : Prop := is_finite a -> is_integer a.

(** Two percentiles that, when both finite, differ by a whole
    number. *)
Definition whole_gap (p p' : num) : Prop :=
  forall a a', p = Fin a -> p' = Fin a' -> exists z : Z, a' - a = IZR z.

(** [NaN] or the number [c]. *)
Definition nan_or (c a : num) : Prop := a = NaN \/ a = c.

(** At least [b], unless [NaN]. *)
Definition above_unless_nan (b a : num) : Prop := ~ is_nan a -> le b a.

(** Both percentiles are finite and [p'] is [p] plus [delta], as real
    numbers. *)
Definition moved_by (delta p p' : num) : Prop :=
  exists a a' d, p = Fin a /\ p' = Fin a' /\ delta = Fin d /\ a' - a = d.

(** The total of a pass for a tuition, a number of months and a
    scholarship, on the monthly total of the input and the draws. *)
Definition total_with (tuition months scholarship : num) (i : inputs) (d : draws) : num :=
  total_of tuition (mul (monthly i d) months) scholarship.

(** The input of a body without usable fields. *)
Definition default_input : inputs :=
  {| tuition := Some (Fin 0); months := Some (Fin 12);
     rent := Some (Fin 0); food := Some (Fin 0);
     transport := Some (Fin 0); scholarship := Some (Fin 0) |}.

(** A body whose fields are finite numbers. *)
Definition sample_body : Handler.jsval := body_of_inputs sample_input.

(** An answer of numbered lines that is not JSON. *)
Definition numbered_answer : text :=
  units "1. Cook at home" ++ [13%N; 10%N] ++ units "2) Share a flat" ++ [10%N; 10%N]
  ++ units "  Walk  ".

(** ** Facts about numbers *)

Lemma le_trans (a b c : num) : le a b -> le b c -> le a c.
Proof. destruct a, b, c; simpl; intros; try tauto; lra. Qed.

Lemma le_antisym (a b : num) : le a b -> le b a -> a = b.
Proof.
  destruct a, b; simpl; intros; try tauto.
  f_equal; lra.
Qed.

Lemma positive_sub_false (a b : num) :
  ~ is_nan a -> ~ is_nan b -> (positive (sub a b) = false <-> le a b).
Proof.
  destruct a, b; simpl; intros; try tauto;
    try (split; [ discriminate | tauto ]).
  destruct (Rlt_dec 0 (x + - x0)); split; intros; try discriminate; lra.
Qed.

Lemma positive_sub_true (a b : num) :
  positive (sub a b) = true -> positive (sub b a) = false.
Proof.
  destruct a, b; simpl; try discriminate; try reflexivity.
  destruct (Rlt_dec 0 (x + - x0)); try discriminate.
  destruct (Rlt_dec 0 (x0 + - x)); [ lra | reflexivity ].
Qed.

Lemma add_0_l (a : num) : add (Fin 0) a = a.
Proof. destruct a; simpl; try reflexivity. f_equal; lra. Qed.

Lemma mul_fin (x y : R) : mul (Fin x) (Fin y) = Fin (x * y).
Proof. reflexivity. Qed.

Lemma Int_part_le (x y : R) : x <= y -> (Int_part x <= Int_part y)%Z.
Proof.
  intros H.
  destruct (base_Int_part x) as [Hx _], (base_Int_part y) as [_ Hy].
  apply Z.lt_succ_r, lt_IZR. rewrite succ_IZR. lra.
Qed.

Lemma Int_part_IZR (z : Z) : Int_part (IZR z) = z.
Proof. symmetry; apply Int_part_spec; lra. Qed.

Lemma Math_round_le (a b : num) : le a b -> le (Math_round a) (Math_round b).
Proof.
  destruct a, b; simpl; try tauto.
  intros H. apply IZR_le, Int_part_le. lra.
Qed.

Lemma Math_round_integer (a : num) : is_finite a -> is_integer (Math_round a).
Proof. destruct a; simpl; try tauto. intros _. eexists; reflexivity. Qed.

(** The special values behave as in the language. *)
Example infinity_minus_infinity : sub PInf PInf = NaN.
Proof. reflexivity. Qed.

Example infinity_times_zero : mul PInf (Fin 0) = NaN.
Proof.
  simpl. unfold inf_times.
  destruct (Rlt_dec 0 0); [ lra | reflexivity ].
Qed.

Example max_of_nan : Math_max (Fin 0) NaN = NaN.
Proof. reflexivity. Qed.

Example round_half_up : Math_round (Fin (7 / 2)) = Fin 4 /\
                        Math_round (Fin (- 7 / 2)) = Fin (-3).
Proof.
  simpl. split; f_equal.
  - replace (7 / 2 + / 2) with (IZR 4) by lra. rewrite Int_part_IZR. reflexivity.
  - replace (- 7 / 2 + / 2) with (IZR (-3)) by lra. rewrite Int_part_IZR. reflexivity.
Qed.

Example or_else_zero : or_else (Fin 0) (Fin 12) = Fin 12.
Proof.
  unfold or_else, truthy.
  destruct (Req_dec_T 0 0) as [_ | H]; [ reflexivity | contradiction H; reflexivity ].
Qed.

Example or_else_negative : or_else (Fin (-3)) (Fin 12) = Fin (-3).
Proof.
  unfold or_else, truthy. destruct (Req_dec_T (-3) 0); [ lra | reflexivity ].
Qed.

(** ** Facts about the sort *)

Example sort_three : sort [Fin 3; Fin 1; Fin 2] = [Fin 1; Fin 2; Fin 3].
Proof.
  unfold sort. simpl.
  repeat match goal with
         | |- context [Rlt_dec ?a ?b] => destruct (Rlt_dec a b); try lra; simpl
         end.
  reflexivity.
Qed.

Lemma insert_perm (x : num) (l : list num) : Permutation (x :: l) (insert x l).
Proof.
  induction l as [| h t IH]; simpl.
  - apply Permutation_refl.
  - destruct (positive (comparefn x h)).
    + apply perm_trans with (h :: x :: t); [ apply perm_swap | ].
      apply perm_skip, IH.
    + apply Permutation_refl.
Qed.

Lemma sort_perm (l : list num) : Permutation l (sort l).
Proof.
  induction l as [| x l IH]; simpl.
  - apply perm_nil.
  - apply perm_trans with (x :: sort l).
    + apply perm_skip, IH.
    + apply insert_perm.
Qed.

Lemma sort_length (l : list num) : List.length (sort l) = List.length l.
Proof. symmetry; apply Permutation_length, sort_perm. Qed.

Lemma insert_hd (R : num -> num -> Prop) (x a : num) (l : list num) :
  R a x -> HdRel R a l -> HdRel R a (insert x l).
Proof.
  intros Hax Hl. destruct l as [| h t]; simpl.
  - constructor; exact Hax.
  - destruct (positive (comparefn x h)); constructor.
    + inversion Hl; assumption.
    + exact Hax.
Qed.

Lemma insert_neighbours (x : num) (l : list num) :
  Sorted not_above l -> Sorted not_above (insert x l).
Proof.
  induction l as [| h t IH]; simpl; intros Hs.
  - repeat constructor.
  - destruct (positive (comparefn x h)) eqn:E.
    + inversion Hs; subst. constructor.
      * apply IH; assumption.
      * apply insert_hd; [ | assumption ].
        apply positive_sub_true; exact E.
    + constructor; [ exact Hs | constructor; exact E ].
Qed.

Lemma sort_neighbours (l : list num) : Sorted not_above (sort l).
Proof.
  induction l as [| x l IH]; simpl.
  - constructor.
  - apply insert_neighbours, IH.
Qed.

Lemma no_nan_perm (l l' : list num) : Permutation l l' -> no_nan l -> no_nan l'.
Proof. intros HP H. unfold no_nan. eapply Permutation_Forall; eassumption. Qed.

Lemma sorted_not_above_le (l : list num) :
  no_nan l -> Sorted not_above l -> StronglySorted le l.
Proof.
  intros Hn Hs. apply Sorted_StronglySorted.
  - intros a b c; apply le_trans.
  - induction Hs as [| a l Hs IH Hd]; constructor.
    + apply IH. inversion Hn; assumption.
    + inversion Hn as [| ? ? Ha Hl]; subst.
      destruct Hd as [| b l Hab]; constructor.
      inversion Hl; subst.
      apply positive_sub_false; assumption.
Qed.

Lemma sort_ascending (l : list num) : no_nan l -> StronglySorted le (sort l).
Proof.
  intros Hn. apply sorted_not_above_le.
  - eapply no_nan_perm; [ apply sort_perm | exact Hn ].
  - apply sort_neighbours.
Qed.

Lemma strongly_sorted_nth (l : list num) :
  StronglySorted le l ->
  forall j k a b, (j < k)%nat -> nth_error l j = Some a -> nth_error l k = Some b ->
  le a b.
Proof.
  induction 1 as [| h t Hs IH Hall]; intros j k a b Hjk Ha Hb.
  - destruct j; discriminate.
  - destruct k as [| k]; [ lia | ].
    destruct j as [| j]; simpl in *.
    + injection Ha as <-.
      rewrite Forall_forall in Hall. apply Hall.
      eapply nth_error_In; exact Hb.
    + eapply IH; [ | exact Ha | exact Hb ]. lia.
Qed.

(** Two ascending arrangements of the same numbers are the same list:
    on a sample without [NaN] the result does not depend on the sorting
    algorithm. *)
Lemma sort_unique (l l' : list num) :
  no_nan l -> Permutation l l' -> StronglySorted le l' -> l' = sort l.
Proof.
  intros Hn HP Hs'.
  assert (Hs : StronglySorted le (sort l)) by (apply sort_ascending; exact Hn).
  assert (HP' : Permutation l' (sort l)).
  { apply perm_trans with l; [ apply Permutation_sym; exact HP | apply sort_perm ]. }
  clear HP Hn. revert HP' Hs. generalize (sort l) as m.
  induction Hs' as [| a l' Hs' IH Ha]; intros m HP Hm.
  - apply Permutation_nil in HP. symmetry; exact HP.
  - destruct Hm as [| b m Hm Hb].
    + apply Permutation_sym, Permutation_nil in HP. discriminate.
    + assert (Hab : a = b).
      { rewrite Forall_forall in Ha, Hb.
        assert (Ia : In a (b :: m)) by (eapply Permutation_in; [ exact HP | left; reflexivity ]).
        assert (Ib : In b (a :: l')).
        { eapply Permutation_in; [ apply Permutation_sym; exact HP | left; reflexivity ]. }
        destruct Ia as [-> | Ia]; [ reflexivity | ].
        destruct Ib as [-> | Ib]; [ reflexivity | ].
        apply le_antisym; [ apply Ha, Ib | apply Hb, Ia ]. }
      subst b. f_equal. apply IH; [ | exact Hm ].
      eapply Permutation_cons_inv; exact HP.
Qed.

(** ** Facts about the tape *)

Lemma redraw_inv (t : tape) (u : R) (t' : tape) :
  redraw t = Some (u, t') ->
  u <> 0 /\ nonzero t = u :: nonzero t' /\
  exists k, t = repeat 0 k ++ u :: t'.
Proof.
  induction t as [| x t IH]; simpl; [ discriminate | ].
  destruct (Req_dec_T x 0) as [-> | Hx]; intros H.
  - destruct (IH H) as (Hu & Hnz & k & ->).
    split; [ exact Hu | ]. split; [ exact Hnz | ].
    exists (S k); reflexivity.
  - injection H as <- <-.
    split; [ exact Hx | ]. split; [ reflexivity | ].
    exists 0%nat; reflexivity.
Qed.

Lemma redraw_nonzero (t : tape) (u : R) (l : list R) :
  nonzero t = u :: l -> exists t', redraw t = Some (u, t') /\ nonzero t' = l.
Proof.
  induction t as [| x t IH]; simpl; [ discriminate | ].
  destruct (Req_dec_T x 0) as [-> | Hx]; intros H.
  - apply IH; exact H.
  - injection H as <- <-. eexists; split; reflexivity.
Qed.

Lemma nonzero_uniform (t : tape) :
  uniform t -> Forall (fun u => 0 < u < 1) (nonzero t).
Proof.
  unfold uniform, nonzero. rewrite !Forall_forall. intros H u Hu.
  apply filter_In in Hu. destruct Hu as [Hin Hnz].
  destruct (Req_dec_T u 0); [ discriminate | ].
  specialize (H u Hin). lra.
Qed.

Lemma nonzero_half_tape (n : nat) : nonzero (half_tape n) = half_tape n.
Proof.
  unfold half_tape. induction (6 * n)%nat as [| k IH]; simpl; [ reflexivity | ].
  destruct (Req_dec_T (1 / 2) 0); [ lra | ]. f_equal; exact IH.
Qed.

Lemma uniform_half_tape (n : nat) : uniform (half_tape n).
Proof.
  unfold uniform, half_tape. apply Forall_forall. intros u Hu.
  apply repeat_spec in Hu; subst. lra.
Qed.

Lemma sixes_in (P : R -> Prop) (l : list R) :
  Forall P l ->
  Forall (fun d : draws =>
            let '(u1, v1, u2, v2, u3, v3) := d in
            P u1 /\ P v1 /\ P u2 /\ P v2 /\ P u3 /\ P v3) (sixes l).
Proof.
  remember (List.length l) as n eqn:Hn. revert l Hn.
  induction n as [n IH] using lt_wf_ind. intros l Hn Hl.
  destruct l as [| u1 [| v1 [| u2 [| v2 [| u3 [| v3 rest]]]]]];
    try (constructor; fail).
  change (sixes (u1 :: v1 :: u2 :: v2 :: u3 :: v3 :: rest))
    with ((u1, v1, u2, v2, u3, v3) :: sixes rest).
  do 6 (let H := fresh "H" in inversion Hl as [| ? ? H Hl']; subst; clear Hl;
        rename Hl' into Hl; revert H).
  intros. constructor.
  - tauto.
  - eapply IH; [ | reflexivity | exact Hl ]. simpl. lia.
Qed.

(** ** The loop of the estimator, pass by pass *)

Lemma box_muller_open (u v : R) :
  0 < u < 1 -> box_muller u v = Fin (sqrt (-2 * ln u) * cos (2 * PI * v)).
Proof.
  intros Hu. unfold box_muller, Math_log, Math_PI.
  destruct (Rlt_dec u 0) as [H | _]; [ lra | ].
  destruct (Req_dec_T u 0) as [H | _]; [ lra | ].
  rewrite !mul_fin. unfold Math_sqrt, Math_cos.
  assert (Hln : ln u < 0).
  { rewrite <- ln_1. apply ln_increasing; lra. }
  destruct (Rlt_dec (-2 * ln u) 0) as [H | _]; [ lra | ].
  reflexivity.
Qed.

Lemma randn_bm_inv (mean std : num) (t : tape) (x : num) (t' : tape) :
  ServerJs.randn_bm mean std t = Some (x, t') ->
  exists u v, nonzero t = u :: v :: nonzero t' /\
              forall m s, ServerJs.randn_bm m s t
                          = Some (add (mul (box_muller u v) s) m, t').
Proof.
  unfold ServerJs.randn_bm.
  destruct (redraw t) as [[u t1] |] eqn:E1; [ | discriminate ].
  destruct (redraw t1) as [[v t2] |] eqn:E2; [ | discriminate ].
  intros H; injection H as <- <-.
  apply redraw_inv in E1, E2.
  destruct E1 as (_ & E1 & _), E2 as (_ & E2 & _).
  exists u, v. rewrite E1, E2. split; reflexivity.
Qed.

Lemma randn_bm_nonzero (mean std : num) (t : tape) (u v : R) (l : list R) :
  nonzero t = u :: v :: l ->
  exists t', ServerJs.randn_bm mean std t
             = Some (add (mul (box_muller u v) std) mean, t') /\
             nonzero t' = l.
Proof.
  intros H. unfold ServerJs.randn_bm.
  destruct (redraw_nonzero _ _ _ H) as (t1 & -> & H1).
  destruct (redraw_nonzero _ _ _ H1) as (t2 & -> & H2).
  exists t2; split; [ reflexivity | exact H2 ].
Qed.

Lemma trial_inv (i : inputs) (t : tape) (x : num) (t' : tape) :
  ServerJs.trial i t = Some (x, t') ->
  exists d : draws,
    (let '(u1, v1, u2, v2, u3, v3) := d in
     nonzero t = u1 :: v1 :: u2 :: v2 :: u3 :: v3 :: nonzero t') /\
    forall i', ServerJs.trial i' t = Some (raw_total i' d, t').
Proof.
  unfold ServerJs.trial, bind, ret.
  destruct (ServerJs.randn_bm _ _ t) as [[x1 t1] |] eqn:E1; [ | discriminate ].
  destruct (ServerJs.randn_bm _ _ t1) as [[x2 t2] |] eqn:E2; [ | discriminate ].
  destruct (ServerJs.randn_bm _ _ t2) as [[x3 t3] |] eqn:E3; [ | discriminate ].
  intros H; injection H as _ <-.
  apply randn_bm_inv in E1, E2, E3.
  destruct E1 as (u1 & v1 & N1 & R1), E2 as (u2 & v2 & N2 & R2),
           E3 as (u3 & v3 & N3 & R3).
  exists (u1, v1, u2, v2, u3, v3). rewrite N1, N2, N3.
  split; [ reflexivity | ].
  intros i'. rewrite R1, R2, R3. reflexivity.
Qed.

Lemma trial_nonzero (i : inputs) (t : tape) (u1 v1 u2 v2 u3 v3 : R) (l : list R) :
  nonzero t = u1 :: v1 :: u2 :: v2 :: u3 :: v3 :: l ->
  exists t', ServerJs.trial i t = Some (raw_total i (u1, v1, u2, v2, u3, v3), t') /\
             nonzero t' = l.
Proof.
  intros H. unfold ServerJs.trial, bind, ret.
  destruct (randn_bm_nonzero (dflt (Fin 0) (rent i)) (ServerJs.rentStd i) _ _ _ _ H)
    as (t1 & -> & H1).
  destruct (randn_bm_nonzero (dflt (Fin 0) (food i)) (ServerJs.foodStd i) _ _ _ _ H1)
    as (t2 & -> & H2).
  destruct (randn_bm_nonzero (dflt (Fin 0) (transport i)) (ServerJs.transportStd i)
              _ _ _ _ H2) as (t3 & -> & H3).
  exists t3; split; [ reflexivity | exact H3 ].
Qed.

(** A run of [n] passes consumes the first [n] groups of six zero-free
    draws, whatever the input, and pushes the total of each. *)
Lemma loop_inv (i : inputs) (n : nat) :
  forall (acc : list num) (t : tape) (totals : list num) (t' : tape),
    ServerJs.loop i n acc t = Some (totals, t') ->
    (n <= List.length (sixes (nonzero t)))%nat /\
    forall i' acc',
      ServerJs.loop i' n acc' t
      = Some (acc' ++ map (raw_total i') (firstn n (sixes (nonzero t))), t').
Proof.
  induction n as [| n IH]; intros acc t totals t' H.
  - simpl in H. injection H as _ <-. split; [ lia | ].
    intros i' acc'. simpl. rewrite app_nil_r. reflexivity.
  - simpl in H. unfold bind in H.
    destruct (ServerJs.trial i t) as [[x t1] |] eqn:E; [ | discriminate ].
    apply trial_inv in E.
    destruct E as ([[[[[u1 v1] u2] v2] u3] v3] & N & E).
    apply IH in H. destruct H as [Hlen H].
    rewrite N.
    change (sixes (u1 :: v1 :: u2 :: v2 :: u3 :: v3 :: nonzero t1))
      with ((u1, v1, u2, v2, u3, v3) :: sixes (nonzero t1)).
    split; [ simpl; lia | ].
    intros i' acc'. simpl. unfold bind. rewrite E, H.
    rewrite <- app_assoc. reflexivity.
Qed.

Lemma loop_total (i : inputs) (n : nat) :
  forall (acc : list num) (t : tape),
    (6 * n <= List.length (nonzero t))%nat ->
    exists totals t', ServerJs.loop i n acc t = Some (totals, t').
Proof.
  induction n as [| n IH]; intros acc t H.
  - exists acc, t; reflexivity.
  - destruct (nonzero t) as [| u1 [| v1 [| u2 [| v2 [| u3 [| v3 rest]]]]]] eqn:N;
      simpl in H; try lia.
    destruct (trial_nonzero i t _ _ _ _ _ _ _ N) as (t1 & E & N1).
    simpl. unfold bind. rewrite E.
    apply IH. rewrite N1. lia.
Qed.

Lemma loop_totals (i : inputs) (t : tape) (totals : list num) (t' : tape) :
  ServerJs.loop i ServerJs.sims [] t = Some (totals, t') ->
  totals = map (raw_total i) (firstn 500 (sixes (nonzero t))) /\
  List.length totals = 500%nat.
Proof.
  intros H. destruct (loop_inv _ _ _ _ _ _ H) as [Hlen E].
  rewrite (E i []) in H. cbn [app] in H.
  assert (Ht : totals = map (raw_total i) (firstn ServerJs.sims (sixes (nonzero t))))
    by congruence.
  split; [ exact Ht | ].
  rewrite Ht, length_map, firstn_length_le; [ reflexivity | exact Hlen ].
Qed.

Lemma raw_total_open (i : inputs) (d : draws) :
  open_unit d -> raw_total i d = trial_total i d.
Proof.
  destruct d as [[[[[u1 v1] u2] v2] u3] v3]. intros (H1 & _ & H2 & _ & H3 & _).
  unfold raw_total, trial_total, clamped, normal_variate.
  rewrite !box_muller_open by assumption.
  replace (add (add (Fin 200) (Fin 800)) (Fin 500)) with (Fin 1500)
    by (simpl; f_equal; lra).
  reflexivity.
Qed.

Lemma trial_total_real (i : inputs) (T m r f tr s : R) (d : draws) :
  tuition_of i = Fin T -> months_of i = Fin m -> rent_of i = Fin r ->
  food_of i = Fin f -> transport_of i = Fin tr -> scholarship_of i = Fin s ->
  trial_total i d = Fin (real_total T m r f tr s d).
Proof.
  destruct d as [[[[[u1 v1] u2] v2] u3] v3].
  unfold trial_total, normal_variate, rent_std, food_std, transport_std.
  intros -> -> -> -> -> ->. reflexivity.
Qed.

Lemma finite_inputs_real (i : inputs) :
  finite_inputs i ->
  exists T m r f tr s,
    tuition_of i = Fin T /\ months_of i = Fin m /\ rent_of i = Fin r /\
    food_of i = Fin f /\ transport_of i = Fin tr /\ scholarship_of i = Fin s.
Proof.
  unfold finite_inputs.
  destruct (tuition_of i) as [| | T |], (months_of i) as [| | m |],
    (rent_of i) as [| | r |], (food_of i) as [| | f |],
    (transport_of i) as [| | tr |], (scholarship_of i) as [| | s |];
    simpl; try tauto.
  intros _. exists T, m, r, f, tr, s. repeat split.
Qed.

Lemma open_draws (t : tape) (n : nat) :
  uniform t -> Forall open_unit (firstn n (sixes (nonzero t))).
Proof.
  intros Hu.
  pose proof (sixes_in _ _ (nonzero_uniform _ Hu)) as H.
  rewrite <- (firstn_skipn n (sixes (nonzero t))) in H.
  apply Forall_app in H. destruct H as [H _].
  eapply Forall_impl; [ | exact H ].
  intros [[[[[u1 v1] u2] v2] u3] v3]. simpl. tauto.
Qed.

(** ** The percentile extraction *)

Lemma floor_index (l : list num) (q : R) (k : nat) :
  q * INR (List.length l) = INR k ->
  round_at l (Math_floor (mul (Fin q) (length_of l))) = rounded_nth l k.
Proof.
  intros H. unfold round_at, rounded_nth, length_of. rewrite mul_fin, H.
  unfold Math_floor, index. rewrite INR_IZR_INZ, !Int_part_IZR, Nat2Z.id.
  destruct (Rle_dec 0 (IZR (Z.of_nat k))) as [_ | Hn].
  - destruct (Req_dec_T (IZR (Z.of_nat k)) (IZR (Z.of_nat k))) as [_ | Hn];
      [ reflexivity | contradiction ].
  - exfalso; apply Hn. apply IZR_le. lia.
Qed.

Lemma INR_500 : INR 500 = 500.
Proof. rewrite INR_IZR_INZ. reflexivity. Qed.

Lemma estimator_of_loop (i : inputs) (t : tape) (totals : list num) (t' : tape) :
  ServerJs.loop i ServerJs.sims [] t = Some (totals, t') ->
  ServerJs.sampleTotalsFromInputs i t
  = Some ({| p10 := rounded_nth (sort totals) 50;
             median := rounded_nth (sort totals) 250;
             p90 := rounded_nth (sort totals) 450 |}, t').
Proof.
  intros E. unfold ServerJs.sampleTotalsFromInputs, bind, ret. rewrite E.
  destruct (loop_totals _ _ _ _ E) as [_ Hlen].
  assert (HL : INR (List.length (sort totals)) = 500)
    by (rewrite sort_length, Hlen; apply INR_500).
  rewrite (floor_index _ _ 50), (floor_index _ _ 250), (floor_index _ _ 450).
  - reflexivity.
  - rewrite HL, INR_IZR_INZ. change (Z.of_nat 450) with 450%Z. lra.
  - rewrite HL, INR_IZR_INZ. change (Z.of_nat 250) with 250%Z. lra.
  - rewrite HL, INR_IZR_INZ. change (Z.of_nat 50) with 50%Z. lra.
Qed.

Lemma estimator_inv (i : inputs) (t : tape) (s : summary) (t' : tape) :
  ServerJs.sampleTotalsFromInputs i t = Some (s, t') ->
  exists totals,
    ServerJs.loop i ServerJs.sims [] t = Some (totals, t') /\
    s = {| p10 := rounded_nth (sort totals) 50;
           median := rounded_nth (sort totals) 250;
           p90 := rounded_nth (sort totals) 450 |}.
Proof.
  intros H.
  destruct (ServerJs.loop i ServerJs.sims [] t) as [[totals t1] |] eqn:E.
  - rewrite (estimator_of_loop _ _ _ _ E) in H.
    exists totals. split; congruence.
  - unfold ServerJs.sampleTotalsFromInputs, bind in H. rewrite E in H. discriminate.
Qed.

Lemma estimator_total (i : inputs) (t : tape) :
  (3000 <= List.length (nonzero t))%nat ->
  exists s t', ServerJs.sampleTotalsFromInputs i t = Some (s, t').
Proof.
  intros H.
  destruct (loop_total i ServerJs.sims [] t) as (totals & t' & E).
  - exact H.
  - unfold ServerJs.sampleTotalsFromInputs, bind, ret. rewrite E.
    eexists; eexists; reflexivity.
Qed.

(** ** The sample of a run *)

Lemma half_tape_enough (n : nat) : (6 * n <= List.length (nonzero (half_tape n)))%nat.
Proof. rewrite nonzero_half_tape. unfold half_tape. rewrite repeat_length. lia. Qed.

Lemma totals_real (i : inputs) (T m r f tr s : R) (t : tape)
      (totals : list num) (t' : tape) :
  tuition_of i = Fin T -> months_of i = Fin m -> rent_of i = Fin r ->
  food_of i = Fin f -> transport_of i = Fin tr -> scholarship_of i = Fin s ->
  uniform t ->
  ServerJs.loop i ServerJs.sims [] t = Some (totals, t') ->
  totals = map (fun d => Fin (real_total T m r f tr s d))
               (firstn 500 (sixes (nonzero t))).
Proof.
  intros HT Hm Hr Hf Htr Hs Hu H.
  destruct (loop_totals _ _ _ _ H) as [-> _].
  apply map_ext_Forall.
  eapply Forall_impl; [ | apply open_draws; exact Hu ].
  intros d Hd. simpl. rewrite raw_total_open by exact Hd.
  apply trial_total_real; assumption.
Qed.

Lemma totals_finite (i : inputs) (t : tape) (totals : list num) (t' : tape) :
  finite_inputs i -> uniform t ->
  ServerJs.loop i ServerJs.sims [] t = Some (totals, t') ->
  Forall is_finite totals.
Proof.
  intros Hi Hu H.
  destruct (finite_inputs_real _ Hi) as (T & m & r & f & tr & s & HT & Hm & Hr & Hf & Htr & Hs).
  rewrite (totals_real _ _ _ _ _ _ _ _ _ _ HT Hm Hr Hf Htr Hs Hu H).
  apply Forall_map, Forall_forall. intros; exact I.
Qed.

Lemma finite_no_nan (l : list num) : Forall is_finite l -> no_nan l.
Proof.
  unfold no_nan. apply Forall_impl. intros [| | x |]; simpl; tauto.
Qed.

Lemma rounded_nth_some (l : list num) (k : nat) :
  (k < List.length l)%nat ->
  exists x, nth_error l k = Some x /\ rounded_nth l k = Math_round x.
Proof.
  intros H. unfold rounded_nth.
  destruct (nth_error l k) as [x |] eqn:E.
  - exists x; split; reflexivity.
  - apply nth_error_None in E. lia.
Qed.

(** On a sample without [NaN] the three rounded order statistics come
    in order. *)
Lemma ordered_without_nan (totals : list num) :
  List.length totals = 500%nat -> no_nan totals ->
  le (rounded_nth (sort totals) 50) (rounded_nth (sort totals) 250) /\
  le (rounded_nth (sort totals) 250) (rounded_nth (sort totals) 450).
Proof.
  intros Hlen Hn.
  pose proof (sort_ascending _ Hn) as Hs.
  pose proof (sort_length totals) as HL. rewrite Hlen in HL.
  destruct (rounded_nth_some (sort totals) 50) as (a & Ea & ->); [ lia | ].
  destruct (rounded_nth_some (sort totals) 250) as (b & Eb & ->); [ lia | ].
  destruct (rounded_nth_some (sort totals) 450) as (c & Ec & ->); [ lia | ].
  split; apply Math_round_le.
  - apply (strongly_sorted_nth _ Hs 50 250); [ lia | exact Ea | exact Eb ].
  - apply (strongly_sorted_nth _ Hs 250 450); [ lia | exact Eb | exact Ec ].
Qed.

(** With an infinite tuition and an infinite scholarship every total is
    [Infinity - Infinity]. *)
Lemma raw_total_infinite (d : draws) : raw_total infinite_input d = NaN.
Proof.
  destruct d as [[[[[u1 v1] u2] v2] u3] v3]. unfold raw_total.
  change (tuition_of infinite_input) with PInf.
  change (scholarship_of infinite_input) with PInf.
  match goal with
  | |- sub (add (add PInf ?x) ?y) PInf = NaN => destruct x, y; reflexivity
  end.
Qed.

Lemma all_nan_sample (l : list num) (k : nat) :
  Forall (fun x => x = NaN) l -> (k < List.length l)%nat ->
  rounded_nth (sort l) k = NaN.
Proof.
  intros Hl Hk.
  destruct (rounded_nth_some (sort l) k) as (x & Ex & ->).
  - rewrite sort_length; exact Hk.
  - apply nth_error_In in Ex.
    eapply Permutation_in in Ex; [ | apply Permutation_sym, sort_perm ].
    rewrite Forall_forall in Hl. rewrite (Hl _ Ex). reflexivity.
Qed.

Lemma infinite_input_run :
  exists t',
    ServerJs.sampleTotalsFromInputs infinite_input (half_tape 500)
    = Some ({| p10 := NaN; median := NaN; p90 := NaN |}, t').
Proof.
  destruct (estimator_total infinite_input (half_tape 500)) as (s & t' & E).
  { apply (half_tape_enough 500). }
  exists t'. rewrite E.
  destruct (estimator_inv _ _ _ _ E) as (totals & L & ->).
  destruct (loop_totals _ _ _ _ L) as [Ht Hlen].
  assert (Hall : Forall (fun x => x = NaN) totals).
  { rewrite Ht. apply Forall_map, Forall_forall. intros d _. apply raw_total_infinite. }
  rewrite !all_nan_sample by (try exact Hall; rewrite Hlen; lia).
  reflexivity.
Qed.

(** ** C1: the order of the three percentiles *)

Lemma finite_sample_input : finite_inputs sample_input.
Proof. repeat split. Qed.

(** C1, as stated, fails.  With tuition and scholarship both
    [Infinity] every trial total is [NaN], the three percentiles are
    [NaN], and [NaN <= NaN] is false. *)
Lemma percentiles_unordered_infinite :
  exists s t',
    ServerJs.sampleTotalsFromInputs infinite_input (half_tape 500) = Some (s, t') /\
    ~ (le (p10 s) (median s) /\ le (median s) (p90 s)).
Proof.
  destruct infinite_input_run as (t' & E).
  eexists; exists t'. split; [ exact E | ].
  simpl. tauto.
Qed.

(** ** C4: the total of one trial *)

(** C4.  For every input and every tape of uniform draws that holds
    the 3000 zero-free draws of a run, the loop ends with 500 totals
    pushed, and the total of trial [k] is
    [tuition + (max(0, rentDraw) + max(0, foodDraw) + max(0, transportDraw)
    + 70 + 100) * months + 1500 - scholarship] on the [k]-th group of
    six zero-free draws, each draw one normal variate with the mean and
    the standard deviation of its category; tuition and scholarship
    enter as they are. *)
Theorem trial_totals_formula (i : inputs) (t : tape) :
  uniform t -> (3000 <= List.length (nonzero t))%nat ->
  exists totals t',
    ServerJs.loop i ServerJs.sims [] t = Some (totals, t') /\
    List.length totals = 500%nat /\
    totals = map (trial_total i) (firstn 500 (sixes (nonzero t))).
Proof.
  intros Hu Hlen0.
  destruct (loop_total i ServerJs.sims [] t Hlen0) as (totals & t' & H).
  exists totals, t'. split; [ exact H | ].
  destruct (loop_totals _ _ _ _ H) as [Ht Hlen].
  split; [ exact Hlen | ].
  rewrite Ht. apply map_ext_Forall.
  eapply Forall_impl; [ | apply open_draws; exact Hu ].
  intros d Hd. apply raw_total_open; exact Hd.
Qed.

Lemma trial_totals_formula_witness :
  exists totals t',
    ServerJs.loop sample_input ServerJs.sims [] (half_tape 500) = Some (totals, t') /\
    List.length totals = 500%nat /\
    totals = map (trial_total sample_input)
                 (firstn 500 (sixes (nonzero (half_tape 500)))).
Proof.
  apply (trial_totals_formula sample_input (half_tape 500)).
  - apply uniform_half_tape.
  - apply (half_tape_enough 500).
Defined.

(** ** C5: the percentile extraction *)

Lemma floor_fraction (p k : Z) :
  (p * 50 = k)%Z -> Int_part (IZR p / 10 * INR 500) = k.
Proof.
  intros <-. rewrite INR_500.
  replace (IZR p / 10 * 500) with (IZR (p * 50)) by (rewrite mult_IZR; lra).
  apply Int_part_IZR.
Qed.

(** C5.  On a tape that holds the 3000 zero-free draws of a run the
    estimator returns; it sorts the [N = 500] totals of the loop
    ascending (the result is a rearrangement of the totals in which no
    element is above its successor, in the order [<=] when no total is
    [NaN]) and returns the elements of index [floor(0.10 N) = 50],
    [floor(0.50 N) = 250] and [floor(0.90 N) = 450], no neighbour being
    averaged in, each rounded to the nearest integer. *)
Theorem percentile_extraction (i : inputs) (t : tape) :
  (3000 <= List.length (nonzero t))%nat ->
  exists s t' totals,
    ServerJs.sampleTotalsFromInputs i t = Some (s, t') /\
    ServerJs.loop i ServerJs.sims [] t = Some (totals, t') /\
    let N := List.length totals in
    let sorted := sort totals in
    N = 500%nat /\
    Permutation totals sorted /\
    Sorted not_above sorted /\
    (no_nan totals -> StronglySorted le sorted) /\
    p10 s = rounded_nth sorted (Z.to_nat (Int_part (1 / 10 * INR N))) /\
    median s = rounded_nth sorted (Z.to_nat (Int_part (5 / 10 * INR N))) /\
    p90 s = rounded_nth sorted (Z.to_nat (Int_part (9 / 10 * INR N))) /\
    Z.to_nat (Int_part (1 / 10 * INR N)) = 50%nat /\
    Z.to_nat (Int_part (5 / 10 * INR N)) = 250%nat /\
    Z.to_nat (Int_part (9 / 10 * INR N)) = 450%nat.
Proof.
  intros Hlen.
  destruct (estimator_total i t Hlen) as (s & t' & H).
  destruct (estimator_inv _ _ _ _ H) as (totals & L & Es).
  exists s, t', totals. split; [ exact H | ]. split; [ exact L | ].
  subst s. cbv zeta.
  destruct (loop_totals _ _ _ _ L) as [_ ->].
  rewrite (floor_fraction 1 50), (floor_fraction 5 250), (floor_fraction 9 450)
    by reflexivity.
  change (Z.to_nat 50) with 50%nat.
  change (Z.to_nat 250) with 250%nat.
  change (Z.to_nat 450) with 450%nat.
  repeat split.
  - apply sort_perm.
  - apply sort_neighbours.
  - apply sort_ascending.
Qed.

Lemma percentile_extraction_witness :
  exists s t' totals,
    ServerJs.sampleTotalsFromInputs sample_input (half_tape 500) = Some (s, t') /\
    ServerJs.loop sample_input ServerJs.sims [] (half_tape 500) = Some (totals, t') /\
    p10 s = rounded_nth (sort totals) 50 /\
    median s = rounded_nth (sort totals) 250 /\
    p90 s = rounded_nth (sort totals) 450.
Proof.
  destruct (percentile_extraction sample_input (half_tape 500) (half_tape_enough 500))
    as (s & t' & totals & E & L & _ & _ & _ & _ & H10 & H50 & H90 & E10 & E50 & E90).
  exists s, t', totals. rewrite E10 in H10. rewrite E50 in H50. rewrite E90 in H90.
  repeat split; assumption.
Defined.

(** ** C6: the random variate *)

(** C6.  On a tape of uniform draws with two draws that are not 0,
    [randn_bm(mean, std)] returns: it skips the draws that are exactly
    0, takes the next draw as [u], skips zeros again and takes the next
    draw as [v]; neither is 0, the logarithm is taken of a positive
    number, and the value is [sqrt(-2 ln u) cos(2 pi v) std + mean].
    With [std = 0] the value is [mean]. *)
Theorem randn_bm_box_muller (mean std : num) (t : tape) :
  uniform t -> (2 <= List.length (nonzero t))%nat ->
  exists (x : num) (t' : tape) (u v : R) (k1 k2 : nat),
    ServerJs.randn_bm mean std t = Some (x, t') /\
    t = repeat 0 k1 ++ u :: repeat 0 k2 ++ v :: t' /\
    0 < u < 1 /\ 0 < v < 1 /\
    Math_log (Fin u) = Fin (ln u) /\
    x = add (mul (Fin (sqrt (-2 * ln u) * cos (2 * PI * v))) std) mean /\
    (forall m sd, mean = Fin m -> std = Fin sd ->
                  x = Fin (sqrt (-2 * ln u) * cos (2 * PI * v) * sd + m)) /\
    (std = Fin 0 -> x = mean).
Proof.
  intros Hu Hlen.
  destruct (nonzero t) as [| u0 [| v0 rest]] eqn:N; simpl in Hlen; try lia.
  destruct (randn_bm_nonzero mean std t _ _ _ N) as (t' & H & _).
  exists (add (mul (box_muller u0 v0) std) mean), t'.
  generalize H. unfold ServerJs.randn_bm at 1.
  destruct (redraw t) as [[u t1] |] eqn:E1; [ | discriminate ].
  destruct (redraw t1) as [[v t2] |] eqn:E2; [ | discriminate ].
  fold (box_muller u v). intros H'.
  assert (Hx : add (mul (box_muller u0 v0) std) mean
               = add (mul (box_muller u v) std) mean) by congruence.
  assert (Ht : t2 = t') by congruence.
  clear H'. subst t2. rewrite Hx in *. clear Hx N u0 v0 rest Hlen.
  apply redraw_inv in E1, E2.
  destruct E1 as (Hu0 & _ & k1 & ->), E2 as (Hv0 & _ & k2 & ->).
  unfold uniform in Hu. rewrite !Forall_app in Hu.
  destruct Hu as (_ & Hu). inversion Hu as [| ? ? Hur Hu']; subst.
  rewrite Forall_app in Hu'. destruct Hu' as (_ & Hv).
  inversion Hv as [| ? ? Hvr _]; subst.
  assert (Hu1 : 0 < u < 1) by lra. assert (Hv1 : 0 < v < 1) by lra.
  exists u, v, k1, k2. split; [ exact H | ].
  rewrite (box_muller_open u v Hu1).
  repeat split; try lra.
  - unfold Math_log.
    destruct (Rlt_dec u 0); [ lra | ]. destruct (Req_dec_T u 0); [ lra | reflexivity ].
  - intros m sd -> ->. reflexivity.
  - intros ->. simpl. rewrite Rmult_0_r. apply add_0_l.
Qed.

Lemma nonzero_guarded_tape : nonzero guarded_tape = [1 / 2; 1 / 4].
Proof.
  unfold nonzero, guarded_tape. simpl.
  repeat match goal with
         | |- context [Req_dec_T ?a ?b] => destruct (Req_dec_T a b); try lra
         end.
  reflexivity.
Qed.

Lemma uniform_guarded_tape : uniform guarded_tape.
Proof. unfold uniform, guarded_tape. repeat constructor; lra. Qed.

Lemma randn_bm_box_muller_witness :
  exists x t',
    ServerJs.randn_bm (Fin 800) (Fin 0) guarded_tape = Some (x, t') /\
    x = Fin 800.
Proof.
  destruct (randn_bm_box_muller (Fin 800) (Fin 0) guarded_tape uniform_guarded_tape)
    as (x & t' & u & v & k1 & k2 & E & _ & _ & _ & _ & _ & _ & H0).
  - rewrite nonzero_guarded_tape. simpl. lia.
  - exists x, t'. split; [ exact E | ]. apply H0. reflexivity.
Defined.

(** ** The coercion of the request body *)

Import Handler.

Lemma or_else_cases (n d : num) :
  (is_nan n \/ n = Fin 0 -> or_else n d = d) /\
  (~ is_nan n -> n <> Fin 0 -> or_else n d = n).
Proof.
  unfold or_else, truthy. destruct n as [| | x |]; simpl.
  - split; [ reflexivity | tauto ].
  - split; [ intros [[] | H]; discriminate | reflexivity ].
  - destruct (Req_dec_T x 0) as [-> | Hx].
    + split; [ reflexivity | intros _ H; contradiction H; reflexivity ].
    + split; [ | reflexivity ].
      intros [[] | H]. injection H as ->. contradiction Hx; reflexivity.
  - split; [ intros [[] | H]; discriminate | reflexivity ].
Qed.

Lemma or_else_not_nan (n d : num) : ~ is_nan d -> ~ is_nan (or_else n d).
Proof.
  intros Hd. unfold or_else, truthy.
  destruct n as [| | x |]; simpl; try tauto.
  destruct (Req_dec_T x 0); simpl; tauto.
Qed.

Lemma coerce_coerced (S2N : string -> num) (TP : jsval -> option string)
      (v : jsval) (d x : num) :
  ~ is_nan d ->
  coerce S2N TP v d = Some x -> coerced S2N TP v d (Some x).
Proof.
  intros Hd. unfold coerce.
  destruct (Number S2N TP v) as [n |] eqn:E; [ | discriminate ].
  intros H; injection H as <-.
  exists n, (or_else n d).
  destruct (or_else_cases n d) as [H0 H1].
  repeat split; try assumption.
  - apply or_else_not_nan; exact Hd.
  - intros ->. simpl in E. injection E as <-. apply H0. left; exact I.
Qed.

Lemma handler_inputs_inv (S2N : string -> num) (TP : jsval -> option string)
      (req_body : jsval) (i : inputs) :
  handler_inputs S2N TP req_body = Some i ->
  exists a b c d e f,
    i = {| tuition := Some a; months := Some b; rent := Some c; food := Some d;
           transport := Some e; scholarship := Some f |} /\
    coerce S2N TP (get (body_of req_body) "tuition") (Fin 0) = Some a /\
    coerce S2N TP (get (body_of req_body) "months") (Fin 12) = Some b /\
    coerce S2N TP (opt_get (get (body_of req_body) "monthly") "rent") (Fin 0) = Some c /\
    coerce S2N TP (opt_get (get (body_of req_body) "monthly") "food") (Fin 0) = Some d /\
    coerce S2N TP (opt_get (get (body_of req_body) "monthly") "transport") (Fin 0)
    = Some e /\
    coerce S2N TP (get (body_of req_body) "scholarship") (Fin 0) = Some f.
Proof.
  unfold handler_inputs. cbv zeta.
  destruct (coerce S2N TP (get (body_of req_body) "tuition") _) as [a |]; [ | discriminate ].
  destruct (coerce S2N TP (get (body_of req_body) "months") _) as [b |]; [ | discriminate ].
  destruct (coerce S2N TP (opt_get _ "rent") _) as [c |]; [ | discriminate ].
  destruct (coerce S2N TP (opt_get _ "food") _) as [d |]; [ | discriminate ].
  destruct (coerce S2N TP (opt_get _ "transport") _) as [e |]; [ | discriminate ].
  destruct (coerce S2N TP (get (body_of req_body) "scholarship") _) as [f |];
    [ | discriminate ].
  intros H; injection H as <-.
  exists a, b, c, d, e, f. repeat split.
Qed.

Lemma handler_negative_body (S2N : string -> num) (TP : jsval -> option string) :
  handler_inputs S2N TP negative_body
  = Some {| tuition := Some (Fin (-5)); months := Some (Fin 12);
            rent := Some (Fin 0); food := Some (Fin 0);
            transport := Some (Fin 0); scholarship := Some (Fin 0) |}.
Proof.
  unfold handler_inputs, coerce, or_else. simpl.
  destruct (Req_dec_T (-5) 0); [ lra | reflexivity ].
Qed.

Lemma handler_negative_months_body (S2N : string -> num) (TP : jsval -> option string) :
  handler_inputs S2N TP negative_months_body
  = Some {| tuition := Some (Fin 0); months := Some (Fin (-3));
            rent := Some (Fin 0); food := Some (Fin 0);
            transport := Some (Fin 0); scholarship := Some (Fin 0) |}.
Proof.
  unfold handler_inputs, coerce, or_else. simpl.
  destruct (Req_dec_T (-3) 0); [ lra | reflexivity ].
Qed.

Lemma handler_infinite_body (S2N : string -> num) (TP : jsval -> option string) :
  handler_inputs S2N TP infinite_body = Some infinite_input.
Proof. reflexivity. Qed.

Lemma infinite_body_route (S2N : string -> num) (TP : jsval -> option string) :
  exists t',
    estimate_route S2N TP infinite_body (half_tape 500)
    = Some (Estimated {| p10 := NaN; median := NaN; p90 := NaN |}, t').
Proof.
  destruct infinite_input_run as (t' & E). exists t'.
  unfold estimate_route. rewrite handler_infinite_body.
  unfold bind, ret. rewrite E. reflexivity.
Qed.

Lemma handler_zero_body (S2N : string -> num) (TP : jsval -> option string) :
  handler_inputs S2N TP zero_body
  = Some {| tuition := Some (Fin 0); months := Some (Fin 12);
            rent := Some (Fin 0); food := Some (Fin 0);
            transport := Some (Fin 0); scholarship := Some (Fin 0) |}.
Proof.
  unfold handler_inputs, coerce, or_else. simpl.
  destruct (Req_dec_T 0 0) as [_ | H]; [ reflexivity | contradiction H; reflexivity ].
Qed.

(** ** C2 and C3: what the handler passes to the estimator *)

Lemma handler_fields (S2N : string -> num) (TP : jsval -> option string)
      (req_body : jsval) (i : inputs) :
  handler_inputs S2N TP req_body = Some i ->
  let body := body_of req_body in
  coerced S2N TP (get body "tuition") (Fin 0) (tuition i) /\
  coerced S2N TP (get body "months") (Fin 12) (months i) /\
  coerced S2N TP (opt_get (get body "monthly") "rent") (Fin 0) (rent i) /\
  coerced S2N TP (opt_get (get body "monthly") "food") (Fin 0) (food i) /\
  coerced S2N TP (opt_get (get body "monthly") "transport") (Fin 0) (transport i) /\
  coerced S2N TP (get body "scholarship") (Fin 0) (scholarship i).
Proof.
  intros H.
  destruct (handler_inputs_inv _ _ _ _ H)
    as (a & b & c & d & e & f & -> & Ha & Hb & Hc & Hd & He & Hf).
  cbv zeta. simpl.
  repeat split; apply coerce_coerced; simpl; tauto.
Qed.

Lemma coerce_none (S2N : string -> num) (TP : jsval -> option string)
      (v : jsval) (d : num) :
  coerce S2N TP v d = None -> throws S2N TP v.
Proof.
  unfold coerce, throws. destruct (Number S2N TP v); [ discriminate | reflexivity ].
Qed.

Lemma handler_none (S2N : string -> num) (TP : jsval -> option string)
      (req_body : jsval) :
  handler_inputs S2N TP req_body = None ->
  let body := body_of req_body in
  throws S2N TP (get body "tuition") \/
  throws S2N TP (get body "months") \/
  throws S2N TP (opt_get (get body "monthly") "rent") \/
  throws S2N TP (opt_get (get body "monthly") "food") \/
  throws S2N TP (opt_get (get body "monthly") "transport") \/
  throws S2N TP (get body "scholarship").
Proof.
  unfold handler_inputs. cbv zeta.
  destruct (coerce S2N TP (get (body_of req_body) "tuition") _) eqn:E1;
    [ | intros _; left; eapply coerce_none; exact E1 ].
  destruct (coerce S2N TP (get (body_of req_body) "months") _) eqn:E2;
    [ | intros _; right; left; eapply coerce_none; exact E2 ].
  destruct (coerce S2N TP (opt_get _ "rent") _) eqn:E3;
    [ | intros _; do 2 right; left; eapply coerce_none; exact E3 ].
  destruct (coerce S2N TP (opt_get _ "food") _) eqn:E4;
    [ | intros _; do 3 right; left; eapply coerce_none; exact E4 ].
  destruct (coerce S2N TP (opt_get _ "transport") _) eqn:E5;
    [ | intros _; do 4 right; left; eapply coerce_none; exact E5 ].
  destruct (coerce S2N TP (get (body_of req_body) "scholarship") _) eqn:E6;
    [ discriminate | intros _; do 5 right; eapply coerce_none; exact E6 ].
Qed.

(** C2, as amended.  For every request body, either the conversion
    of one of the six values throws and nothing is passed to the
    estimator, or each of the six fields passed is a number that is not
    [NaN]: the default (0, for months 12) when the value is missing or
    converts to [NaN] or to 0, and the converted number as it is in
    every other case, a negative or an infinite one too. *)
Theorem coercion_of_fields (S2N : string -> num) (TP : jsval -> option string)
        (req_body : jsval) :
  let body := body_of req_body in
  match handler_inputs S2N TP req_body with
  | Some i =>
      coerced S2N TP (get body "tuition") (Fin 0) (tuition i) /\
      coerced S2N TP (get body "months") (Fin 12) (months i) /\
      coerced S2N TP (opt_get (get body "monthly") "rent") (Fin 0) (rent i) /\
      coerced S2N TP (opt_get (get body "monthly") "food") (Fin 0) (food i) /\
      coerced S2N TP (opt_get (get body "monthly") "transport") (Fin 0) (transport i) /\
      coerced S2N TP (get body "scholarship") (Fin 0) (scholarship i)
  | None =>
      throws S2N TP (get body "tuition") \/
      throws S2N TP (get body "months") \/
      throws S2N TP (opt_get (get body "monthly") "rent") \/
      throws S2N TP (opt_get (get body "monthly") "food") \/
      throws S2N TP (opt_get (get body "monthly") "transport") \/
      throws S2N TP (get body "scholarship")
  end.
Proof.
  cbv zeta. destruct (handler_inputs S2N TP req_body) as [i |] eqn:E.
  - apply (handler_fields _ _ _ _ E).
  - apply (handler_none _ _ _ E).
Qed.

(** C2, as stated, fails: a negative tuition in the body reaches the
    estimator as it is. *)
Lemma negative_tuition_passed :
  exists i,
    handler_inputs no_string no_object negative_body = Some i /\
    tuition i = Some (Fin (-5)) /\
    ~ (exists x, tuition i = Some (Fin x) /\ 0 <= x).
Proof.
  eexists. split; [ apply handler_negative_body | ]. simpl.
  split; [ reflexivity | ].
  intros (x & E & Hx). injection E as <-. lra.
Qed.

(** C3, as amended.  The months the estimator uses are 12 whenever the
    supplied field is missing or converts to [NaN] or to 0; every other
    supplied number is used as it is, a positive one and a negative one
    alike. *)
Theorem months_default (S2N : string -> num) (TP : jsval -> option string)
        (req_body : jsval) (i : inputs) :
  handler_inputs S2N TP req_body = Some i ->
  exists n,
    Number S2N TP (get (body_of req_body) "months") = Some n /\
    months i = Some (months_of i) /\
    (get (body_of req_body) "months" = JUndefined -> months_of i = Fin 12) /\
    (is_nan n -> months_of i = Fin 12) /\
    (n = Fin 0 -> months_of i = Fin 12) /\
    (lt (Fin 0) n -> months_of i = n) /\
    (lt n (Fin 0) -> months_of i = n).
Proof.
  intros H.
  destruct (handler_fields _ _ _ _ H) as (_ & Hm & _).
  destruct Hm as (n & x & En & Ex & _ & Hu & H0 & H1).
  exists n. unfold months_of. rewrite Ex. simpl.
  split; [ exact En | ]. split; [ reflexivity | ].
  split; [ exact Hu | ]. split; [ tauto | ]. split; [ tauto | ].
  split; intros Hn; apply H1; destruct n; simpl in *; try tauto; try discriminate;
    intros E; injection E as ->; lra.
Qed.

Lemma months_default_witness :
  exists i,
    handler_inputs no_string no_object zero_body = Some i /\
    months_of i = Fin 12.
Proof.
  eexists. split; [ apply handler_zero_body | ].
  destruct (months_default no_string no_object zero_body _
              (handler_zero_body no_string no_object))
    as (n & En & _ & _ & _ & H0 & _).
  apply H0. simpl in En. injection En as <-. reflexivity.
Defined.

(** C3, as stated, fails: a negative months field is not replaced by
    12. *)
Lemma negative_months_kept :
  exists i,
    handler_inputs no_string no_object negative_months_body = Some i /\
    months_of i = Fin (-3) /\ months_of i <> Fin 12.
Proof.
  eexists. split; [ apply handler_negative_months_body | ].
  unfold months_of. simpl. split; [ reflexivity | ].
  intros E. injection E as E. lra.
Qed.

(** ** C7: the standard deviations *)

Lemma std_positive (k floor_ : R) (c : num) :
  0 < k -> 0 < floor_ -> ~ is_nan c ->
  lt (Fin 0) (Math_max (mul (Fin k) c) (Fin floor_)).
Proof.
  intros Hk Hf Hc. destruct c as [| | x |]; simpl.
  - apply Hc; exact I.
  - unfold inf_times. destruct (Rlt_dec 0 k); [ simpl; exact Hf | lra ].
  - apply Rlt_le_trans with floor_; [ exact Hf | apply Rmax_r ].
  - unfold inf_times. destruct (Rlt_dec 0 k); [ simpl; exact I | lra ].
Qed.

(** C7.  For every input the handler passes, the standard deviations
    with which the three categories are sampled are
    [max(0.10 rent, 50)], [max(0.15 food, 20)] and
    [max(0.20 transport, 10)], each strictly positive, also for a point
    estimate of zero; every pass of the loop draws with them. *)
Theorem standard_deviations (S2N : string -> num) (TP : jsval -> option string)
        (req_body : jsval) (i : inputs) :
  handler_inputs S2N TP req_body = Some i ->
  ServerJs.rentStd i = Math_max (mul (Fin (1 / 10)) (rent_of i)) (Fin 50) /\
  ServerJs.foodStd i = Math_max (mul (Fin (15 / 100)) (food_of i)) (Fin 20) /\
  ServerJs.transportStd i = Math_max (mul (Fin (2 / 10)) (transport_of i)) (Fin 10) /\
  lt (Fin 0) (ServerJs.rentStd i) /\
  lt (Fin 0) (ServerJs.foodStd i) /\
  lt (Fin 0) (ServerJs.transportStd i) /\
  (forall r, rent_of i = Fin r -> ServerJs.rentStd i = Fin (Rmax (1 / 10 * r) 50)) /\
  (forall f, food_of i = Fin f -> ServerJs.foodStd i = Fin (Rmax (15 / 100 * f) 20)) /\
  (forall tr, transport_of i = Fin tr ->
              ServerJs.transportStd i = Fin (Rmax (2 / 10 * tr) 10)) /\
  (forall t x t',
      ServerJs.trial i t = Some (x, t') ->
      exists d : draws, x = raw_total i d).
Proof.
  intros H.
  destruct (handler_fields _ _ _ _ H) as (_ & _ & Hr & Hf & Ht & _).
  destruct Hr as (n1 & r & _ & Er & Hr & _), Hf as (n2 & f & _ & Ef & Hf & _),
           Ht as (n3 & tr & _ & Et & Ht & _).
  unfold ServerJs.rentStd, ServerJs.foodStd, ServerJs.transportStd,
    rent_of, food_of, transport_of.
  rewrite Er, Ef, Et. simpl dflt.
  split; [ reflexivity | ]. split; [ reflexivity | ]. split; [ reflexivity | ].
  split; [ apply std_positive; [ lra | lra | exact Hr ] | ].
  split; [ apply std_positive; [ lra | lra | exact Hf ] | ].
  split; [ apply std_positive; [ lra | lra | exact Ht ] | ].
  split; [ intros ? ->; reflexivity | ].
  split; [ intros ? ->; reflexivity | ].
  split; [ intros ? ->; reflexivity | ].
  intros t x t' E. destruct (trial_inv _ _ _ _ E) as (d & _ & E').
  exists d. specialize (E' i). congruence.
Qed.

Lemma standard_deviations_witness :
  exists i,
    handler_inputs no_string no_object zero_body = Some i /\
    rent_of i = Fin 0 /\
    lt (Fin 0) (ServerJs.rentStd i) /\
    lt (Fin 0) (ServerJs.foodStd i) /\
    lt (Fin 0) (ServerJs.transportStd i).
Proof.
  eexists. split; [ apply handler_zero_body | ].
  destruct (standard_deviations no_string no_object zero_body _
              (handler_zero_body no_string no_object))
    as (_ & _ & _ & Hr & Hf & Ht & _).
  split; [ reflexivity | ]. split; [ exact Hr | ]. split; [ exact Hf | exact Ht ].
Defined.

(** ** C8: a shift of the tuition *)

Lemma sort_finite (l : list num) : Forall is_finite l -> Forall is_finite (sort l).
Proof. intros H. eapply Permutation_Forall; [ apply sort_perm | exact H ]. Qed.

Lemma finite_raise_tuition (i : inputs) (z : R) :
  finite_inputs i -> finite_inputs (raise_tuition i (Fin z)).
Proof.
  unfold finite_inputs, raise_tuition, tuition_of, months_of, rent_of, food_of,
    transport_of, scholarship_of. simpl.
  intros (HT & H). split; [ | exact H ].
  destruct (dflt (Fin 0) (tuition i)); simpl in *; tauto.
Qed.

Lemma percentiles_integer (i : inputs) (t : tape) (s : summary) (t' : tape) :
  finite_inputs i -> uniform t ->
  ServerJs.sampleTotalsFromInputs i t = Some (s, t') ->
  is_integer (p10 s) /\ is_integer (median s) /\ is_integer (p90 s).
Proof.
  intros Hi Hu H.
  destruct (estimator_inv _ _ _ _ H) as (totals & L & ->). simpl.
  pose proof (sort_finite _ (totals_finite _ _ _ _ Hi Hu L)) as Hfin.
  pose proof (sort_length totals) as HL.
  rewrite (proj2 (loop_totals _ _ _ _ L)) in HL.
  assert (Hk : forall k, (k < 500)%nat -> is_integer (rounded_nth (sort totals) k)).
  { intros k Hk. destruct (rounded_nth_some (sort totals) k) as (x & Ex & ->); [ lia | ].
    apply Math_round_integer. apply nth_error_In in Ex.
    rewrite Forall_forall in Hfin. apply Hfin; exact Ex. }
  repeat split; apply Hk; lia.
Qed.

(** C8, as stated, fails: the percentiles are rounded to integers, so
    raising the tuition by one half cannot raise [p10] by one half. *)
Lemma tuition_shift_half_fails :
  exists s s' t' t'',
    ServerJs.sampleTotalsFromInputs sample_input (half_tape 500) = Some (s, t') /\
    ServerJs.sampleTotalsFromInputs (raise_tuition sample_input (Fin (/ 2)))
                                    (half_tape 500) = Some (s', t'') /\
    p10 s' <> add (p10 s) (Fin (/ 2)).
Proof.
  destruct (estimator_total sample_input (half_tape 500) (half_tape_enough 500))
    as (s & t' & E).
  destruct (estimator_total (raise_tuition sample_input (Fin (/ 2))) (half_tape 500)
              (half_tape_enough 500)) as (s' & t'' & E').
  exists s, s', t', t''. split; [ exact E | ]. split; [ exact E' | ].
  destruct (percentiles_integer _ _ _ _ finite_sample_input
              (uniform_half_tape 500) E) as ((a & ->) & _).
  destruct (percentiles_integer _ _ _ _
              (finite_raise_tuition _ (/ 2) finite_sample_input)
              (uniform_half_tape 500) E') as ((b & ->) & _).
  simpl. intros H. injection H as H.
  assert (H2 : IZR (2 * b) = IZR (2 * a + 1)).
  { rewrite plus_IZR, !mult_IZR. lra. }
  apply eq_IZR in H2. lia.
Qed.

(** ** C9: the lower bound of the totals *)

(** C9, as stated, fails: the input with tuition and scholarship both
    [Infinity] has non-negative tuition, rent, food, transport and
    months, and none of its totals, all [NaN], is at least the bound,
    itself [NaN]. *)
Lemma lower_bound_fails_infinite :
  le (Fin 0) (tuition_of infinite_input) /\ le (Fin 0) (rent_of infinite_input) /\
  le (Fin 0) (food_of infinite_input) /\ le (Fin 0) (transport_of infinite_input) /\
  le (Fin 0) (months_of infinite_input) /\
  exists totals t',
    ServerJs.loop infinite_input ServerJs.sims [] (half_tape 500) = Some (totals, t') /\
    Forall (fun x => x = NaN) totals /\
    floor_total infinite_input = NaN /\
    Forall (fun x => ~ le (floor_total infinite_input) x) totals /\
    ~ Forall (fun x => le (floor_total infinite_input) x) totals.
Proof.
  unfold tuition_of, rent_of, food_of, transport_of, months_of. simpl.
  repeat (split; [ try exact I; lra | ]).
  destruct (loop_total infinite_input ServerJs.sims [] (half_tape 500)
              (half_tape_enough 500)) as (totals & t' & E).
  exists totals, t'. split; [ exact E | ].
  destruct (loop_totals _ _ _ _ E) as [Ht Hlen].
  split.
  { rewrite Ht. apply Forall_map, Forall_forall. intros d _. apply raw_total_infinite. }
  split; [ reflexivity | ].
  assert (Hnone : Forall (fun x => ~ le (floor_total infinite_input) x) totals).
  { apply Forall_forall. intros x _ H. exact H. }
  split; [ exact Hnone | ].
  destruct totals as [| x totals]; [ discriminate | ].
  intros H. inversion H as [| ? ? Hx _]. inversion Hnone as [| ? ? Hn _].
  exact (Hn Hx).
Qed.

(** ** C10: the two copies of the estimator *)

Lemma randn_bm_agree (mean std : num) (t : tape) :
  Part000.randn_bm mean std t = ServerJs.randn_bm mean std t.
Proof. reflexivity. Qed.

Lemma trial_agree (i : inputs) (t : tape) : Part000.trial i t = ServerJs.trial i t.
Proof. reflexivity. Qed.

Lemma loop_agree (i : inputs) (n : nat) :
  forall (totals : list num) (t : tape),
    Part000.loop i n totals t = ServerJs.loop i n totals t.
Proof.
  induction n as [| n IH]; intros totals t; simpl; [ reflexivity | ].
  unfold bind. rewrite trial_agree.
  destruct (ServerJs.trial i t) as [[x t1] |]; [ apply IH | reflexivity ].
Qed.

(** C10.  The estimator of [src/unnamed/part_000] and the estimator of
    [src/server.js] return the same [p10], [median] and [p90], and
    leave the same draws unread, for every input and every tape of
    draws. *)
Theorem copies_agree (i : inputs) (t : tape) :
  Part000.sampleTotalsFromInputs i t = ServerJs.sampleTotalsFromInputs i t.
Proof.
  unfold Part000.sampleTotalsFromInputs, ServerJs.sampleTotalsFromInputs, bind.
  change Part000.sims with ServerJs.sims. rewrite loop_agree. reflexivity.
Qed.

(** ** The fallback of the recommendations: lines of an answer *)

Lemma drop_space_head (s : text) :
  match drop_space s with [] => True | c :: _ => is_space c = false end.
Proof.
  induction s as [| c r IH]; simpl; [ exact I | ].
  destruct (is_space c) eqn:E; [ exact IH | exact E ].
Qed.

Lemma drop_space_suffix (s : text) : exists p, s = p ++ drop_space s.
Proof.
  induction s as [| c r IH]; simpl.
  - exists []; reflexivity.
  - destruct (is_space c).
    + destruct IH as (p & E). exists (c :: p). simpl. f_equal. exact E.
    + exists []; reflexivity.
Qed.

Lemma drop_space_last (l : text) (a : N) :
  is_space a = false -> drop_space (l ++ [a]) = drop_space l ++ [a].
Proof.
  intros Ha. induction l as [| c r IH]; simpl.
  - rewrite Ha. reflexivity.
  - destruct (is_space c); [ exact IH | reflexivity ].
Qed.

Lemma drop_space_fixed (s : text) :
  match s with [] => True | c :: _ => is_space c = false end -> drop_space s = s.
Proof. destruct s as [| c r]; simpl; [ reflexivity | intros ->; reflexivity ]. Qed.

Lemma trim_trimmed (s : text) : trimmed (trim s).
Proof.
  unfold trimmed, trim. split.
  - pose proof (drop_space_head s) as H.
    destruct (drop_space s) as [| a r]; [ exact I | ].
    simpl rev. rewrite drop_space_last by exact H.
    rewrite rev_app_distr. simpl. exact H.
  - rewrite rev_involutive. apply drop_space_head.
Qed.

Lemma trim_fixed (s : text) : trimmed s -> trim s = s.
Proof.
  intros [H1 H2]. unfold trim.
  rewrite (drop_space_fixed s H1), (drop_space_fixed (rev s) H2).
  apply rev_involutive.
Qed.

Lemma trim_incl (s : text) (c : N) : In c (trim s) -> In c s.
Proof.
  unfold trim. intros H. apply in_rev in H.
  destruct (drop_space_suffix (rev (drop_space s))) as (p & E).
  assert (H1 : In c (rev (drop_space s))) by (rewrite E; apply in_or_app; right; exact H).
  apply in_rev in H1.
  destruct (drop_space_suffix s) as (q & E'). rewrite E'.
  apply in_or_app; right; exact H1.
Qed.

Lemma split_lines_no_feed (s cur : text) :
  ~ In 10%N cur -> Forall (fun p => ~ In 10%N p) (split_lines cur s).
Proof.
  revert cur. induction s as [| c rest IH]; intros cur Hcur; simpl.
  - constructor; [ | constructor ]. intros H; apply in_rev in H; exact (Hcur H).
  - destruct (N.eqb c 10) eqn:E.
    + constructor.
      * intros H. apply in_rev in H. apply Hcur.
        destruct cur as [| d cur']; [ exact H | ].
        destruct (N.eq_dec d 13) as [-> | Hd].
        -- right; exact H.
        -- replace (match d with 13%N => cur' | _ => d :: cur' end) with (d :: cur') in H;
             [ exact H | ].
           destruct d as [| pd]; [ reflexivity | ].
           do 4 (destruct pd as [pd | pd |]; try reflexivity).
           contradiction Hd; reflexivity.
      * apply IH. intros [].
    + apply IH. intros [H | H]; [ | exact (Hcur H) ].
      subst c. discriminate.
Qed.

Lemma split_lines_count (s cur : text) :
  List.length (split_lines cur s) = S (count_occ N.eq_dec s 10%N).
Proof.
  revert cur. induction s as [| c rest IH]; intros cur; simpl; [ reflexivity | ].
  destruct (N.eqb c 10) eqn:E.
  - apply N.eqb_eq in E. subst c.
    destruct (N.eq_dec 10 10) as [_ | H]; [ | contradiction H; reflexivity ].
    simpl. rewrite IH. reflexivity.
  - apply N.eqb_neq in E.
    destruct (N.eq_dec c 10) as [H | _]; [ contradiction | ]. apply IH.
Qed.

Lemma lines_of_each (s : text) :
  Forall (fun l => l <> [] /\ trimmed l /\ ~ In 10%N l) (lines_of s).
Proof.
  unfold lines_of, split.
  apply Forall_forall. intros l Hl.
  apply filter_In in Hl. destruct Hl as [Hin Hne].
  apply in_map_iff in Hin. destruct Hin as (p & <- & Hp).
  split; [ intros E; rewrite E in Hne; discriminate | ].
  split; [ apply trim_trimmed | ].
  intros H. apply trim_incl in H.
  pose proof (split_lines_no_feed s [] (fun F => F)) as HF.
  rewrite Forall_forall in HF. exact (HF p Hp H).
Qed.

(** X1.  Every line the fallback keeps is not empty, has no white
    space at either end and holds no line feed; there are at most as
    many lines as the text has line feeds, plus one. *)
Theorem lines_of_clean (s : text) :
  Forall (fun l => l <> [] /\ trimmed l /\ ~ In 10%N l) (lines_of s) /\
  (List.length (lines_of s) <= S (count_occ N.eq_dec s 10%N))%nat.
Proof.
  split; [ apply lines_of_each | ].
  unfold lines_of, split.
  eapply Nat.le_trans; [ apply filter_length_le | ].
  rewrite length_map, split_lines_count. apply Nat.le_refl.
Qed.

Lemma mark_not_digit (m : N) : is_mark m = true -> is_digit m = false.
Proof.
  unfold is_mark, is_digit. intros H. apply orb_true_iff in H.
  destruct H as [H | H]; apply N.eqb_eq in H; subst m; reflexivity.
Qed.

Lemma drop_digits_run (ds : text) (m : N) (tail : text) :
  forallb is_digit ds = true -> is_digit m = false ->
  drop_digits (ds ++ m :: tail) = m :: tail.
Proof.
  intros Hds Hm. induction ds as [| d ds IH]; simpl.
  - rewrite Hm. reflexivity.
  - simpl in Hds. apply andb_true_iff in Hds. destruct Hds as [Hd Hds].
    rewrite Hd. apply IH; exact Hds.
Qed.

Lemma drop_digits_split (l : text) :
  exists ds, l = ds ++ drop_digits l /\ forallb is_digit ds = true.
Proof.
  induction l as [| c r IH]; simpl.
  - exists []; split; reflexivity.
  - destruct (is_digit c) eqn:E.
    + destruct IH as (ds & E1 & E2). exists (c :: ds). simpl.
      rewrite E, E2. split; [ f_equal; exact E1 | reflexivity ].
    + exists []; split; reflexivity.
Qed.

(** X2.  What the stripping of a numbering does to a line: when the
    line starts with one or more digits followed by a full stop or a
    closing parenthesis, these and the white space after them are
    removed; every other line is left as it is. *)
Theorem strip_number_cases (l : text) :
  (exists ds m tail,
      l = ds ++ m :: tail /\ ds <> [] /\ forallb is_digit ds = true /\
      is_mark m = true /\ strip_number l = drop_space tail) \/
  ((forall ds m tail,
       ds <> [] -> forallb is_digit ds = true -> is_mark m = true ->
       l <> ds ++ m :: tail) /\
   strip_number l = l).
Proof.
  destruct l as [| c r].
  { right. split; [ | reflexivity ].
    intros ds m tail Hne _ _ E. destruct ds; [ contradiction Hne; reflexivity | discriminate ]. }
  unfold strip_number. destruct (is_digit c) eqn:Ec.
  - destruct (drop_digits_split (c :: r)) as (ds & E & Hds).
    destruct (drop_digits (c :: r)) as [| m tail] eqn:Ed.
    + right. split; [ | reflexivity ].
      intros ds' m' tail' _ Hds' Hm' E'.
      rewrite E' in Ed. rewrite drop_digits_run in Ed
        by (try exact Hds'; apply mark_not_digit; exact Hm').
      discriminate.
    + destruct (is_mark m) eqn:Em.
      * left. exists ds, m, tail.
        split; [ exact E | ]. split; [ | auto ].
        intros ->. simpl in E. injection E as -> _.
        rewrite (mark_not_digit _ Em) in Ec. discriminate.
      * right. split; [ | reflexivity ].
        intros ds' m' tail' _ Hds' Hm' E'.
        rewrite E' in Ed. rewrite drop_digits_run in Ed
          by (try exact Hds'; apply mark_not_digit; exact Hm').
        injection Ed as -> _. rewrite Hm' in Em. discriminate.
  - right. split; [ | reflexivity ].
    intros ds m tail Hne Hds _ E.
    destruct ds as [| d ds]; [ contradiction Hne; reflexivity | ].
    simpl in E, Hds. injection E as -> _.
    apply andb_true_iff in Hds. rewrite Ec in Hds. destruct Hds; discriminate.
Qed.

Example numbered_answer_lines :
  map strip_number (firstn 5 (lines_of numbered_answer))
  = [units "Cook at home"; units "Share a flat"; units "Walk"].
Proof. vm_compute. reflexivity. Qed.

(** ** The recommendations *)

(** X3.  The recommendations of [server.js] are never empty: the five
    defaults, a parsed array with an element, or between one and five
    lines of the answer. *)
Theorem server_tips_never_empty (JSON_parse : text -> option Handler.jsval)
        (ai : ai_result) :
  ServerTips.recommendations JSON_parse ai <> [] /\
  (forall txt, ai = Answered (Some txt) -> JSON_parse txt = None ->
               (1 <= List.length (ServerTips.recommendations JSON_parse ai) <= 5)%nat).
Proof.
  unfold ServerTips.recommendations. split.
  - destruct ai as [| | [txt |]]; try discriminate.
    destruct (nonempty txt); [ | discriminate ].
    destruct (JSON_parse txt) as [[| | | | | [| v l] |] |]; try discriminate.
    destruct (lines_of txt) as [| a r]; discriminate.
  - intros txt -> Hp. rewrite Hp.
    destruct (nonempty txt); [ | simpl; lia ].
    destruct (lines_of txt) as [| a r] eqn:E; [ simpl; lia | ].
    rewrite length_map, length_firstn. simpl List.length. lia.
Qed.

(** X4.  The recommendations of [part_000] are empty exactly when the
    answer is a text that parses to the empty array; [server.js] keeps
    its defaults on that answer. *)
Theorem part000_tips_empty (JSON_parse : text -> option Handler.jsval)
        (ai : ai_result) :
  (Part000Tips.recommendations JSON_parse ai = [] <->
   exists txt, ai = Answered (Some txt) /\ txt <> [] /\
               JSON_parse txt = Some (Handler.JArr [])) /\
  (Part000Tips.recommendations JSON_parse ai = [] ->
   ServerTips.recommendations JSON_parse ai = ServerTips.default).
Proof.
  assert (H : Part000Tips.recommendations JSON_parse ai = [] ->
              exists txt, ai = Answered (Some txt) /\ txt <> [] /\
                          JSON_parse txt = Some (Handler.JArr [])).
  { unfold Part000Tips.recommendations.
    destruct ai as [| | [txt |]]; try discriminate.
    destruct txt as [| c txt]; [ discriminate | ]. simpl nonempty. cbv iota.
    destruct (JSON_parse (c :: txt)) as [[| | | | | [| v l] |] |] eqn:E;
      try discriminate.
    - intros _. exists (c :: txt). repeat split; [ discriminate | exact E ].
    - destruct (lines_of (c :: txt)); discriminate. }
  split; [ split; [ exact H | ] | ].
  - intros (txt & -> & Hne & Hp). unfold Part000Tips.recommendations.
    destruct txt; [ contradiction Hne; reflexivity | ].
    simpl nonempty. cbv iota. rewrite Hp. reflexivity.
  - intros E. destruct (H E) as (txt & -> & Hne & Hp).
    unfold ServerTips.recommendations.
    destruct txt; [ contradiction Hne; reflexivity | ].
    simpl nonempty. cbv iota. rewrite Hp. reflexivity.
Qed.

(** ** More on the estimator *)

Lemma constant_sample (c : num) (l : list num) (k : nat) :
  Forall (fun x => x = c) l -> (k < List.length l)%nat ->
  rounded_nth (sort l) k = Math_round c.
Proof.
  intros Hl Hk.
  destruct (rounded_nth_some (sort l) k) as (x & Ex & ->).
  - rewrite sort_length; exact Hk.
  - apply nth_error_In in Ex.
    eapply Permutation_in in Ex; [ | apply Permutation_sym, sort_perm ].
    rewrite Forall_forall in Hl. rewrite (Hl _ Ex). reflexivity.
Qed.

Lemma nonzero_app (a b : tape) : nonzero (a ++ b) = nonzero a ++ nonzero b.
Proof. unfold nonzero. apply filter_app. Qed.

Lemma redraw_prefix (t : tape) (u : R) (t' : tape) :
  redraw t = Some (u, t') -> exists used, t = used ++ t'.
Proof.
  intros H. destruct (redraw_inv _ _ _ H) as (_ & _ & k & E).
  exists (repeat 0 k ++ [u]). rewrite <- app_assoc. exact E.
Qed.

Lemma randn_bm_prefix (mean std : num) (t : tape) (x : num) (t' : tape) :
  ServerJs.randn_bm mean std t = Some (x, t') -> exists used, t = used ++ t'.
Proof.
  unfold ServerJs.randn_bm.
  destruct (redraw t) as [[u t1] |] eqn:E1; [ | discriminate ].
  destruct (redraw t1) as [[v t2] |] eqn:E2; [ | discriminate ].
  intros H. assert (t2 = t') by congruence. subst t2.
  destruct (redraw_prefix _ _ _ E1) as (a & ->).
  destruct (redraw_prefix _ _ _ E2) as (b & ->).
  exists (a ++ b). rewrite app_assoc. reflexivity.
Qed.

Lemma trial_prefix (i : inputs) (t : tape) (x : num) (t' : tape) :
  ServerJs.trial i t = Some (x, t') ->
  exists used, t = used ++ t' /\ List.length (nonzero used) = 6%nat.
Proof.
  intros H.
  assert (P : exists used, t = used ++ t').
  { revert H. unfold ServerJs.trial, bind, ret.
    destruct (ServerJs.randn_bm _ _ t) as [[x1 t1] |] eqn:E1; [ | discriminate ].
    destruct (ServerJs.randn_bm _ _ t1) as [[x2 t2] |] eqn:E2; [ | discriminate ].
    destruct (ServerJs.randn_bm _ _ t2) as [[x3 t3] |] eqn:E3; [ | discriminate ].
    intros H. assert (t3 = t') by congruence. subst t3.
    destruct (randn_bm_prefix _ _ _ _ _ E1) as (a & ->).
    destruct (randn_bm_prefix _ _ _ _ _ E2) as (b & ->).
    destruct (randn_bm_prefix _ _ _ _ _ E3) as (c & ->).
    exists (a ++ b ++ c). rewrite <- !app_assoc. reflexivity. }
  destruct P as (used & E). exists used. split; [ exact E | ].
  destruct (trial_inv _ _ _ _ H) as ([[[[[u1 v1] u2] v2] u3] v3] & N & _).
  rewrite E, nonzero_app in N.
  apply (f_equal (@List.length R)) in N. rewrite length_app in N. simpl in N. lia.
Qed.

Lemma loop_prefix (i : inputs) (n : nat) :
  forall (acc : list num) (t : tape) (totals : list num) (t' : tape),
    ServerJs.loop i n acc t = Some (totals, t') ->
    exists used, t = used ++ t' /\ List.length (nonzero used) = (6 * n)%nat.
Proof.
  induction n as [| n IH]; intros acc t totals t' H.
  - simpl in H. exists []. split; [ | reflexivity ].
    unfold ret in H. cbn [app]. congruence.
  - simpl in H. unfold bind in H.
    destruct (ServerJs.trial i t) as [[x t1] |] eqn:E; [ | discriminate ].
    destruct (trial_prefix _ _ _ _ E) as (a & -> & Ha).
    destruct (IH _ _ _ _ H) as (b & -> & Hb).
    exists (a ++ b). rewrite <- app_assoc. split; [ reflexivity | ].
    rewrite nonzero_app, length_app. lia.
Qed.

(** X9.  A run of the estimator reads a prefix of the tape that holds
    exactly 3000 draws other than zero (six per trial), and reads the
    same prefix whatever the input: the input has no influence on the
    random source. *)
Theorem draws_read (i : inputs) (t : tape) :
  (3000 <= List.length (nonzero t))%nat ->
  exists s t' used,
    ServerJs.sampleTotalsFromInputs i t = Some (s, t') /\
    t = used ++ t' /\
    List.length (nonzero used) = 3000%nat /\
    forall i', exists s', ServerJs.sampleTotalsFromInputs i' t = Some (s', t').
Proof.
  intros Hlen.
  destruct (estimator_total i t Hlen) as (s & t' & H).
  destruct (estimator_inv _ _ _ _ H) as (totals & L & _).
  destruct (loop_prefix _ _ _ _ _ _ L) as (used & E & Hused).
  exists s, t', used. split; [ exact H | ]. split; [ exact E | ].
  split; [ exact Hused | ].
  intros i'. destruct (loop_inv _ _ _ _ _ _ L) as [_ L'].
  eexists. apply estimator_of_loop. apply (L' i' []).
Qed.

Lemma draws_read_witness :
  exists s t' used,
    ServerJs.sampleTotalsFromInputs sample_input (half_tape 500) = Some (s, t') /\
    half_tape 500 = used ++ t' /\
    List.length (nonzero used) = 3000%nat /\
    forall i', exists s',
        ServerJs.sampleTotalsFromInputs i' (half_tape 500) = Some (s', t').
Proof.
  apply (draws_read sample_input (half_tape 500)).
  apply (half_tape_enough 500).
Defined.

(** X11.  On a sample without [NaN] the sorted array is an ascending
    rearrangement of the sample and the only one: whatever algorithm
    the engine sorts with, the array is the same; sorting it again
    changes nothing. *)
Theorem ascending_rearrangement_unique (l : list num) :
  no_nan l ->
  Permutation l (sort l) /\ StronglySorted le (sort l) /\
  (forall l', Permutation l l' -> StronglySorted le l' -> l' = sort l) /\
  sort (sort l) = sort l.
Proof.
  intros Hn.
  split; [ apply sort_perm | ]. split; [ apply sort_ascending; exact Hn | ].
  split; [ intros l' HP Hs; apply sort_unique; assumption | ].
  symmetry. apply sort_unique.
  - eapply no_nan_perm; [ apply sort_perm | exact Hn ].
  - apply Permutation_refl.
  - apply sort_ascending; exact Hn.
Qed.

Lemma ascending_rearrangement_unique_witness :
  Permutation [Fin 3; Fin 1; Fin 2] (sort [Fin 3; Fin 1; Fin 2]) /\
  StronglySorted le (sort [Fin 3; Fin 1; Fin 2]) /\
  (forall l', Permutation [Fin 3; Fin 1; Fin 2] l' -> StronglySorted le l' ->
              l' = sort [Fin 3; Fin 1; Fin 2]) /\
  sort (sort [Fin 3; Fin 1; Fin 2]) = sort [Fin 3; Fin 1; Fin 2].
Proof.
  apply (ascending_rearrangement_unique [Fin 3; Fin 1; Fin 2]).
  repeat constructor; simpl; tauto.
Defined.

(** ** More on the handler *)

Lemma or_else_idempotent (n d : num) : or_else (or_else n d) d = or_else n d.
Proof.
  unfold or_else. destruct (truthy n) eqn:E; [ rewrite E; reflexivity | ].
  destruct (truthy d); reflexivity.
Qed.

Lemma or_else_truthy (n d : num) : truthy d = true -> truthy (or_else n d) = true.
Proof. intros Hd. unfold or_else. destruct (truthy n) eqn:E; assumption. Qed.

Lemma truthy_twelve : truthy (Fin 12) = true.
Proof. unfold truthy. destruct (Req_dec_T 12 0); [ lra | reflexivity ]. Qed.

Lemma get_non_object (v : jsval) (k : string) :
  (forall fields, v <> JObj fields) -> get v k = JUndefined /\ opt_get v k = JUndefined.
Proof.
  intros H. destruct v; simpl; try (split; reflexivity).
  contradiction (H fields); reflexivity.
Qed.

(** X12.  A request body that is missing or falsy, or that is not an
    object (an array, a string, a number, [true]), is handled as the
    empty object: the estimator gets tuition 0, months 12, rent, food
    and transport 0 and scholarship 0, and no conversion throws. *)
Theorem unusable_body_defaults (S2N : string -> num) (TP : jsval -> option string)
        (req_body : jsval) :
  truthy_val req_body = false \/ (forall fields, req_body <> JObj fields) ->
  handler_inputs S2N TP req_body = Some default_input.
Proof.
  intros H.
  assert (Hb : forall k, get (body_of req_body) k = JUndefined).
  { intros k. unfold body_of. destruct H as [H | H].
    - rewrite H. reflexivity.
    - destruct (truthy_val req_body); [ | reflexivity ].
      apply (get_non_object _ _ H). }
  unfold handler_inputs. cbv zeta. rewrite !Hb. reflexivity.
Qed.

Lemma unusable_body_defaults_witness :
  handler_inputs no_string no_object JNull = Some default_input /\
  handler_inputs no_string no_object (JArr [JNum (Fin 5)]) = Some default_input.
Proof.
  split.
  - apply (unusable_body_defaults no_string no_object JNull). left; reflexivity.
  - apply (unusable_body_defaults no_string no_object (JArr [JNum (Fin 5)])).
    right; discriminate.
Defined.

(** X13.  When [body.monthly] is missing, [null] or anything but an
    object, the handler passes rent, food and transport 0, whatever the
    rest of the body holds. *)
Theorem monthly_missing_zero (S2N : string -> num) (TP : jsval -> option string)
        (req_body : jsval) (i : inputs) :
  handler_inputs S2N TP req_body = Some i ->
  (forall fields, get (body_of req_body) "monthly" <> JObj fields) ->
  rent i = Some (Fin 0) /\ food i = Some (Fin 0) /\ transport i = Some (Fin 0).
Proof.
  intros H Hm.
  destruct (handler_inputs_inv _ _ _ _ H)
    as (a & b & c & d & e & f & -> & _ & _ & Hc & Hd & He & _).
  assert (Hu : forall k, opt_get (get (body_of req_body) "monthly") k = JUndefined).
  { intros k. apply (get_non_object _ _ Hm). }
  rewrite Hu in Hc, Hd, He.
  cbv [coerce Number or_else truthy] in Hc, Hd, He. simpl.
  repeat split; congruence.
Qed.

Lemma monthly_missing_zero_witness :
  exists i,
    handler_inputs no_string no_object zero_body = Some i /\
    rent i = Some (Fin 0) /\ food i = Some (Fin 0) /\ transport i = Some (Fin 0).
Proof.
  eexists. split; [ apply handler_zero_body | ].
  apply (monthly_missing_zero no_string no_object zero_body _
           (handler_zero_body no_string no_object)).
  intros fields. discriminate.
Defined.

(** X14.  The months the handler passes to the estimator are never 0
    and never [NaN]: the default 12 stands in for both, so the monthly
    costs always enter the totals. *)
Theorem months_never_zero (S2N : string -> num) (TP : jsval -> option string)
        (req_body : jsval) (i : inputs) :
  handler_inputs S2N TP req_body = Some i ->
  months_of i <> Fin 0 /\ ~ is_nan (months_of i) /\ truthy (months_of i) = true.
Proof.
  intros H.
  destruct (handler_inputs_inv _ _ _ _ H)
    as (a & b & c & d & e & f & -> & _ & Hb & _).
  unfold months_of. simpl. unfold coerce in Hb.
  destruct (Number S2N TP (get (body_of req_body) "months")) as [n |];
    [ | discriminate ].
  injection Hb as <-.
  pose proof (or_else_truthy n (Fin 12) truthy_twelve) as Ht.
  split; [ | split; [ | exact Ht ] ].
  - intros E. rewrite E in Ht. unfold truthy in Ht.
    destruct (Req_dec_T 0 0) as [_ | F]; [ discriminate | contradiction F; reflexivity ].
  - intros E. destruct (or_else n (Fin 12)); simpl in *; try tauto; discriminate.
Qed.

Lemma months_never_zero_witness :
  exists i,
    handler_inputs no_string no_object zero_body = Some i /\
    months_of i <> Fin 0 /\ ~ is_nan (months_of i) /\ truthy (months_of i) = true.
Proof.
  eexists. split; [ apply handler_zero_body | ].
  apply (months_never_zero no_string no_object zero_body _
           (handler_zero_body no_string no_object)).
Defined.

(** X15.  Coercion is idempotent: the body that spells out the six
    numbers the handler has passed is coerced to the same six numbers,
    whatever the two conversions do. *)
Theorem coercion_round_trip (S2N S2N' : string -> num)
        (TP TP' : jsval -> option string) (req_body : jsval) (i : inputs) :
  handler_inputs S2N TP req_body = Some i ->
  handler_inputs S2N' TP' (body_of_inputs i) = Some i.
Proof.
  intros H.
  destruct (handler_inputs_inv _ _ _ _ H)
    as (a & b & c & d & e & f & -> & Ha & Hb & Hc & Hd & He & Hf).
  assert (K : forall v dflt0 x, coerce S2N TP v dflt0 = Some x -> or_else x dflt0 = x).
  { intros v d0 x Hx. unfold coerce in Hx.
    destruct (Number S2N TP v) as [n |]; [ | discriminate ].
    injection Hx as <-. apply or_else_idempotent. }
  unfold handler_inputs, body_of_inputs, coerce. cbn -[or_else].
  rewrite (K _ _ _ Ha), (K _ _ _ Hb), (K _ _ _ Hc), (K _ _ _ Hd), (K _ _ _ He),
    (K _ _ _ Hf).
  reflexivity.
Qed.

Lemma coercion_round_trip_witness :
  exists i,
    handler_inputs no_string no_object negative_body = Some i /\
    handler_inputs no_string no_object (body_of_inputs i) = Some i.
Proof.
  eexists. split; [ apply handler_negative_body | ].
  apply (coercion_round_trip no_string no_string no_object no_object negative_body _
           (handler_negative_body no_string no_object)).
Defined.

(** ** The response *)

Import Reply.

Lemma coerce_sample_body (S2N : string -> num) (TP : jsval -> option string) :
  handler_inputs S2N TP (body_of_inputs sample_input) = Some sample_input.
Proof.
  unfold handler_inputs, body_of_inputs, coerce, or_else, truthy. simpl.
  repeat match goal with
         | |- context [Req_dec_T ?a ?b] => destruct (Req_dec_T a b); try lra
         end.
  reflexivity.
Qed.

Lemma integer_neg (a : num) : is_integer a -> is_integer (neg a).
Proof. intros (z & ->). exists (- z)%Z. simpl. rewrite opp_IZR. reflexivity. Qed.

Lemma integer_one_time : add (add (Fin 200) (Fin 800)) (Fin 500) = Fin (IZR 1500).
Proof. simpl. f_equal. lra. Qed.

(** ** Poisoned inputs; lines kept as tips *)

Lemma raw_total_poisoned (i : inputs) (d : draws) : poisoned i -> raw_total i d = NaN.
Proof.
  destruct d as [[[[[u1 v1] u2] v2] u3] v3]. unfold poisoned, raw_total.
  destruct (tuition_of i) as [| | T |] eqn:ET, (scholarship_of i) as [| | S |] eqn:ES;
    simpl is_nan; intros H;
    try reflexivity;
    try (exfalso; destruct H as [[] | [[] | [H1 H2]]]; discriminate);
    match goal with
    | |- sub (add (add _ ?x) ?y) _ = NaN => destruct x, y; reflexivity
    end.
Qed.

(** X17.  An input whose tuition or scholarship is [NaN], or whose
    tuition and scholarship are both [Infinity], makes every trial
    total [NaN]: the estimator returns [NaN] for all three percentiles,
    whatever the other fields and the draws. *)
Theorem poisoned_input_nan (i : inputs) (t : tape) :
  poisoned i -> (3000 <= List.length (nonzero t))%nat ->
  exists t',
    ServerJs.sampleTotalsFromInputs i t
    = Some ({| p10 := NaN; median := NaN; p90 := NaN |}, t').
Proof.
  intros Hp Hlen.
  destruct (estimator_total i t Hlen) as (s & t' & E).
  exists t'. rewrite E.
  destruct (estimator_inv _ _ _ _ E) as (totals & L & ->).
  destruct (loop_totals _ _ _ _ L) as [Ht HL].
  assert (Hall : Forall (fun x => x = NaN) totals).
  { rewrite Ht. apply Forall_map, Forall_forall. intros d _.
    apply raw_total_poisoned; exact Hp. }
  rewrite !(constant_sample _ _ _ Hall) by (rewrite HL; lia).
  reflexivity.
Qed.

Lemma poisoned_input_nan_witness :
  exists t',
    ServerJs.sampleTotalsFromInputs infinite_input (half_tape 500)
    = Some ({| p10 := NaN; median := NaN; p90 := NaN |}, t').
Proof.
  apply (poisoned_input_nan infinite_input (half_tape 500)).
  - right; right; split; reflexivity.
  - apply (half_tape_enough 500).
Defined.

(** X19.  When the answer is not valid JSON, [part_000] either keeps
    its defaults (no line is left) or returns the first lines of the
    answer, between one and five, each not empty, without white space
    at either end and without a line feed; [server.js] returns the same
    lines with their numbering stripped. *)
Theorem fallback_tips (JP : text -> option jsval) (txt : text) :
  JP txt = None ->
  (lines_of txt = [] /\
   Part000Tips.recommendations JP (Answered (Some txt)) = Part000Tips.default /\
   ServerTips.recommendations JP (Answered (Some txt)) = ServerTips.default) \/
  (Part000Tips.recommendations JP (Answered (Some txt))
   = map Line (firstn 5 (lines_of txt)) /\
   Forall clean_line (Part000Tips.recommendations JP (Answered (Some txt))) /\
   (1 <= List.length (Part000Tips.recommendations JP (Answered (Some txt))) <= 5)%nat /\
   ServerTips.recommendations JP (Answered (Some txt))
   = map (fun l => Line (strip_number l)) (firstn 5 (lines_of txt))).
Proof.
  intros Hp. unfold Part000Tips.recommendations, ServerTips.recommendations.
  destruct txt as [| c txt].
  { left. repeat split. }
  simpl nonempty. cbv iota. rewrite Hp.
  pose proof (lines_of_each (c :: txt)) as Hall.
  destruct (lines_of (c :: txt)) as [| a r] eqn:E.
  - left. repeat split.
  - right. split; [ reflexivity | ]. split; [ | split; [ | reflexivity ] ].
    + apply Forall_map.
      rewrite <- (firstn_skipn 5 (a :: r)) in Hall.
      apply Forall_app in Hall. destruct Hall as [Hall _].
      eapply Forall_impl; [ | exact Hall ].
      intros l (H1 & H2 & H3). exists l.
      split; [ reflexivity | ]. split; [ exact H1 | ]. split; [ exact H2 | exact H3 ].
    + rewrite length_map, length_firstn. simpl List.length. lia.
Qed.

Lemma fallback_tips_witness :
  Part000Tips.recommendations (fun _ => None) (Answered (Some numbered_answer))
  = map Line [units "1. Cook at home"; units "2) Share a flat"; units "Walk"] /\
  ServerTips.recommendations (fun _ => None) (Answered (Some numbered_answer))
  = map Line [units "Cook at home"; units "Share a flat"; units "Walk"].
Proof.
  destruct (fallback_tips (fun _ => None) numbered_answer eq_refl)
    as [(E & _) | (E1 & _ & _ & E2)].
  - vm_compute in E. discriminate.
  - rewrite E1, E2. vm_compute. split; reflexivity.
Defined.

(** ** Order statistics of two samples *)

Lemma le_defined (a b : num) : le a b -> ~ is_nan a /\ ~ is_nan b.
Proof. destruct a, b; simpl; tauto. Qed.

Lemma positive_true_le (a b : num) :
  ~ is_nan a -> ~ is_nan b -> positive (comparefn a b) = true -> le b a.
Proof.
  intros Ha Hb H. apply positive_sub_true in H.
  apply positive_sub_false; assumption.
Qed.

Lemma positive_false_le (a b : num) :
  ~ is_nan a -> ~ is_nan b -> positive (comparefn a b) = false -> le a b.
Proof. intros Ha Hb H. apply positive_sub_false; assumption. Qed.

Lemma sorted_head (h a : num) (t : list num) : Sorted le (h :: a :: t) -> le h a.
Proof. intros H. inversion H as [| ? ? _ Hd]; subst. inversion Hd; assumption. Qed.

Lemma sorted_tail (h : num) (t : list num) : Sorted le (h :: t) -> Sorted le t.
Proof. intros H. inversion H; assumption. Qed.

Lemma insert_above (t t' : list num) :
  Forall2 le t t' ->
  forall h x', le h x' -> Sorted le (h :: t) -> Forall2 le (h :: t) (insert x' t').
Proof.
  induction 1 as [| a a' t1 t1' Ha Ht IH]; intros h x' Hx Hs; simpl.
  - repeat constructor; exact Hx.
  - destruct (le_defined _ _ Hx) as [_ Nx], (le_defined _ _ Ha) as [_ Na'].
    destruct (positive (comparefn x' a')) eqn:E.
    + constructor.
      * eapply le_trans; [ apply (sorted_head _ _ _ Hs) | exact Ha ].
      * apply IH; [ | apply (sorted_tail _ _ Hs) ].
        eapply le_trans; [ exact Ha | apply positive_true_le; assumption ].
    + constructor; [ exact Hx | constructor; assumption ].
Qed.

Lemma insert_below (t t' : list num) :
  Forall2 le t t' ->
  forall x h', le x h' -> Sorted le (h' :: t') -> Forall2 le (insert x t) (h' :: t').
Proof.
  induction 1 as [| a a' t1 t1' Ha Ht IH]; intros x h' Hx Hs; simpl.
  - repeat constructor; exact Hx.
  - destruct (le_defined _ _ Hx) as [Nx _], (le_defined _ _ Ha) as [Na _].
    destruct (positive (comparefn x a)) eqn:E.
    + constructor.
      * eapply le_trans; [ apply (positive_true_le x a Nx Na E) | exact Hx ].
      * apply IH; [ | apply (sorted_tail _ _ Hs) ].
        eapply le_trans; [ exact Hx | apply (sorted_head _ _ _ Hs) ].
    + constructor; [ exact Hx | constructor; assumption ].
Qed.

Lemma insert_dominated (s s' : list num) :
  Forall2 le s s' -> Sorted le s -> Sorted le s' ->
  forall x x', le x x' -> Forall2 le (insert x s) (insert x' s').
Proof.
  induction 1 as [| h h' t t' Hh Ht IH]; intros Hs Hs' x x' Hx; simpl.
  - repeat constructor; exact Hx.
  - destruct (le_defined _ _ Hx) as [Nx Nx'], (le_defined _ _ Hh) as [Nh Nh'].
    destruct (positive (comparefn x h)) eqn:E, (positive (comparefn x' h')) eqn:E'.
    + constructor; [ exact Hh | ].
      apply IH; [ apply (sorted_tail _ _ Hs) | apply (sorted_tail _ _ Hs') | exact Hx ].
    + constructor.
      * eapply le_trans; [ apply (positive_true_le x h Nx Nh E) | exact Hx ].
      * apply insert_below; [ exact Ht | | exact Hs' ].
        eapply le_trans; [ exact Hx | apply positive_false_le; assumption ].
    + constructor.
      * eapply le_trans; [ apply (positive_false_le x h Nx Nh E) | exact Hh ].
      * apply insert_above; [ exact Ht | | exact Hs ].
        eapply le_trans; [ exact Hh | apply positive_true_le; assumption ].
    + constructor; [ exact Hx | constructor; assumption ].
Qed.

Lemma forall2_le_defined (l l' : list num) : Forall2 le l l' -> no_nan l /\ no_nan l'.
Proof.
  induction 1 as [| a a' t t' Ha _ [IH1 IH2]]; [ split; constructor | ].
  destruct (le_defined _ _ Ha). split; constructor; assumption.
Qed.

(** Order statistics respect the pointwise order of two samples. *)
Lemma sort_dominated (l l' : list num) :
  Forall2 le l l' -> Forall2 le (sort l) (sort l').
Proof.
  induction 1 as [| a a' t t' Ha Ht IH]; simpl; [ constructor | ].
  destruct (forall2_le_defined _ _ Ht) as [N N'].
  apply insert_dominated; [ exact IH | | | exact Ha ];
    apply StronglySorted_Sorted, sort_ascending; assumption.
Qed.

Lemma rounded_nth_dominated (l l' : list num) (k : nat) :
  Forall2 le l l' -> (k < List.length l)%nat ->
  le (rounded_nth l k) (rounded_nth l' k).
Proof.
  intros H. revert k. induction H as [| a a' t t' Ha Ht IH]; intros k Hk; simpl in Hk.
  - lia.
  - destruct k as [| k]; unfold rounded_nth; simpl.
    + apply Math_round_le; exact Ha.
    + apply IH. lia.
Qed.


(** ** Monotone arithmetic

    The facts of this section use of [+], [-] and [*] only that they
    are monotone where their result is a number and that [NaN]
    propagates; both hold of the rounded operations of binary64 as
    well. *)

Lemma mul_defined (a b : num) : ~ is_nan (mul a b) -> ~ is_nan a /\ ~ is_nan b.
Proof. destruct a, b; simpl; tauto. Qed.

Ltac split_signs :=
  unfold inf_times;
  repeat match goal with
         | |- context [Rlt_dec ?a ?b] => destruct (Rlt_dec a b)
         | H : context [Rlt_dec ?a ?b] |- _ => destruct (Rlt_dec a b)
         end;
  simpl in *; try tauto; try lra; try nra.

Lemma mul_le_r (k : R) (M m m' : num) :
  0 < k -> le (Fin k) M -> le m m' ->
  ~ is_nan (mul M m) -> ~ is_nan (mul M m') -> le (mul M m) (mul M m').
Proof.
  intros Hk HM Hm.
  destruct M as [| | x |], m as [| | y |], m' as [| | y' |]; simpl in *; try tauto;
    split_signs.
Qed.

Lemma total_of_floor (k : R) (T S m M : num) :
  0 < k -> le (Fin k) M -> le (Fin 0) m ->
  ~ is_nan (total_of T (mul M m) S) ->
  le (total_of T (mul (Fin k) m) S) (total_of T (mul M m) S).
Proof.
  intros Hk HM Hm. unfold total_of, sub.
  destruct T as [| | a |], S as [| | b |], M as [| | x |], m as [| | y |];
    simpl in *; try tauto; split_signs.
Qed.

Lemma total_of_living (T S L L' : num) :
  le L L' -> ~ is_nan (total_of T L S) -> ~ is_nan (total_of T L' S) ->
  le (total_of T L S) (total_of T L' S).
Proof.
  unfold total_of, sub.
  destruct T, S, L, L'; simpl; try tauto; intros; lra.
Qed.

Lemma total_of_tuition (T S L delta : num) :
  le (Fin 0) delta ->
  ~ is_nan (total_of T L S) -> ~ is_nan (total_of (add T delta) L S) ->
  le (total_of T L S) (total_of (add T delta) L S).
Proof.
  unfold total_of, sub.
  destruct T, S, L, delta; simpl; try tauto; intros; lra.
Qed.

Lemma total_of_scholarship (T S L delta : num) :
  le (Fin 0) delta ->
  ~ is_nan (total_of T L S) -> ~ is_nan (total_of T L (add S delta)) ->
  le (total_of T L (add S delta)) (total_of T L S).
Proof.
  unfold total_of, sub.
  destruct T, S, L, delta; simpl; try tauto; intros; lra.
Qed.

Lemma total_of_defined (T S L : num) : ~ is_nan (total_of T L S) -> ~ is_nan L.
Proof. unfold total_of, sub. destruct T, S, L; simpl; tauto. Qed.

(** ** The totals as the source writes them *)

Lemma raw_total_shape (i : inputs) (d : draws) :
  raw_total i d
  = total_of (tuition_of i) (mul (monthly i d) (months_of i)) (scholarship_of i).
Proof.
  destruct d as [[[[[u1 v1] u2] v2] u3] v3]. unfold raw_total, monthly, total_of.
  replace (add (add (Fin 200) (Fin 800)) (Fin 500)) with (Fin 1500)
    by (simpl; f_equal; lra).
  reflexivity.
Qed.

Lemma clamped_floor (x : num) :
  is_nan (Math_max (Fin 0) x) \/ le (Fin 0) (Math_max (Fin 0) x).
Proof.
  destruct x as [| | y |]; simpl; [ left; exact I | right; lra | right | right; exact I ].
  apply Rmax_l.
Qed.

Lemma monthly_floor (i : inputs) (d : draws) :
  is_nan (monthly i d) \/ le (Fin (70 + 100)) (monthly i d).
Proof.
  destruct d as [[[[[u1 v1] u2] v2] u3] v3]. unfold monthly, clamped.
  destruct (clamped_floor (add (mul (box_muller u1 v1) (rent_std (rent_of i))) (rent_of i)))
    as [H1 | H1];
    destruct (clamped_floor
                (add (mul (box_muller u2 v2) (food_std (food_of i))) (food_of i)))
      as [H2 | H2];
    destruct (clamped_floor
                (add (mul (box_muller u3 v3) (transport_std (transport_of i)))
                     (transport_of i)))
      as [H3 | H3];
    revert H1 H2 H3;
    generalize (Math_max (Fin 0)
                  (add (mul (box_muller u1 v1) (rent_std (rent_of i))) (rent_of i)));
    generalize (Math_max (Fin 0)
                  (add (mul (box_muller u2 v2) (food_std (food_of i))) (food_of i)));
    generalize (Math_max (Fin 0)
                  (add (mul (box_muller u3 v3) (transport_std (transport_of i)))
                       (transport_of i)));
    intros c b a; destruct a, b, c; simpl; try tauto; intros; right; lra.
Qed.

Lemma floor_total_shape (i : inputs) :
  floor_total i
  = total_of (tuition_of i) (mul (Fin (70 + 100)) (months_of i)) (scholarship_of i).
Proof. reflexivity. Qed.

(** A total that is a number is at least the total without rent, food
    and transport, when the months are not negative. *)
Lemma raw_total_floor (i : inputs) (d : draws) :
  le (Fin 0) (months_of i) -> above_unless_nan (floor_total i) (raw_total i d).
Proof.
  intros Hm Hn. rewrite raw_total_shape in *. rewrite floor_total_shape.
  destruct (monthly_floor i d) as [HM | HM].
  - exfalso. apply total_of_defined, mul_defined in Hn. tauto.
  - apply total_of_floor; [ lra | exact HM | exact Hm | exact Hn ].
Qed.

Lemma map_guarded {A : Type} (f g : A -> num) (l : list A) :
  (forall d, ~ is_nan (f d) -> ~ is_nan (g d) -> le (f d) (g d)) ->
  no_nan (map f l) -> no_nan (map g l) -> Forall2 le (map f l) (map g l).
Proof.
  intros H. induction l as [| d ds IH]; simpl; intros Hf Hg; [ constructor | ].
  inversion Hf; subst. inversion Hg; subst.
  constructor; [ apply H; assumption | apply IH; assumption ].
Qed.

(** ** The end of the estimator *)

Lemma summary_of_500 (totals : list num) :
  List.length totals = 500%nat ->
  summary_of totals = {| p10 := rounded_nth (sort totals) 50;
                         median := rounded_nth (sort totals) 250;
                         p90 := rounded_nth (sort totals) 450 |}.
Proof.
  intros Hlen. unfold summary_of. cbv zeta.
  assert (HL : INR (List.length (sort totals)) = 500)
    by (rewrite sort_length, Hlen; apply INR_500).
  rewrite (floor_index _ _ 50), (floor_index _ _ 250), (floor_index _ _ 450).
  - reflexivity.
  - rewrite HL, INR_IZR_INZ. change (Z.of_nat 450) with 450%Z. lra.
  - rewrite HL, INR_IZR_INZ. change (Z.of_nat 250) with 250%Z. lra.
  - rewrite HL, INR_IZR_INZ. change (Z.of_nat 50) with 50%Z. lra.
Qed.

(** A run is the loop followed by the end of the estimator; the loop
    pushes the total of each group of six draws, for whatever input. *)
Lemma run_shape (i : inputs) (t : tape) :
  (3000 <= List.length (nonzero t))%nat ->
  exists t',
    forall i',
      ServerJs.loop i' ServerJs.sims [] t
      = Some (map (raw_total i') (firstn 500 (sixes (nonzero t))), t') /\
      ServerJs.sampleTotalsFromInputs i' t
      = Some (summary_of (map (raw_total i') (firstn 500 (sixes (nonzero t)))), t') /\
      List.length (map (raw_total i') (firstn 500 (sixes (nonzero t)))) = 500%nat.
Proof.
  intros Hlen.
  destruct (loop_total i ServerJs.sims [] t Hlen) as (totals & t' & L).
  exists t'. intros i'.
  destruct (loop_inv _ _ _ _ _ _ L) as [_ E].
  pose proof (E i' []) as L'. cbn [app] in L'.
  change ServerJs.sims with 500%nat in L' at 2.
  destruct (loop_totals _ _ _ _ L') as [_ HL].
  split; [ exact L' | ]. split; [ | exact HL ].
  rewrite (estimator_of_loop _ _ _ _ L'). rewrite summary_of_500 by exact HL.
  reflexivity.
Qed.

Lemma ordered_sample (sample : list num) :
  List.length sample = 500%nat -> no_nan sample -> ordered (summary_of sample).
Proof.
  intros Hlen Hn. rewrite summary_of_500 by exact Hlen.
  apply ordered_without_nan; assumption.
Qed.

Lemma rounded_nth_whole (l : list num) (k : nat) : whole_if_finite (rounded_nth l k).
Proof.
  unfold whole_if_finite, rounded_nth.
  destruct (nth_error l k) as [x |]; simpl; [ | tauto ].
  destruct x; simpl; try tauto. intros _. eexists; reflexivity.
Qed.

Lemma whole_gap_of (p p' : num) : whole_if_finite p -> whole_if_finite p' -> whole_gap p p'.
Proof.
  intros H H' a a' -> ->.
  destruct (H I) as (z & E), (H' I) as (z' & E').
  injection E as ->. injection E' as ->.
  exists (z' - z)%Z. rewrite minus_IZR. reflexivity.
Qed.

Lemma not_lower_samples (l l' : list num) :
  List.length l = 500%nat -> Forall2 le l l' -> not_lower (summary_of l) (summary_of l').
Proof.
  intros Hlen H.
  assert (Hlen' : List.length l' = 500%nat)
    by (rewrite <- Hlen; symmetry; eapply Forall2_length; exact H).
  rewrite (summary_of_500 l Hlen), (summary_of_500 l' Hlen').
  pose proof (sort_dominated _ _ H) as D.
  pose proof (sort_length l) as HL. rewrite Hlen in HL.
  unfold not_lower. simpl.
  repeat split; apply rounded_nth_dominated; try exact D; lia.
Qed.

Lemma total_of_tuition_down (T S L delta : num) :
  le delta (Fin 0) ->
  ~ is_nan (total_of T L S) -> ~ is_nan (total_of (add T delta) L S) ->
  le (total_of (add T delta) L S) (total_of T L S).
Proof.
  unfold total_of, sub.
  destruct T, S, L, delta; simpl; try tauto; intros; lra.
Qed.

Lemma total_of_nan (T S : num) : total_of T NaN S = NaN.
Proof. destruct T, S; reflexivity. Qed.

Lemma mul_zero (M : num) : mul M (Fin 0) = NaN \/ mul M (Fin 0) = Fin 0.
Proof.
  destruct M as [| | x |]; simpl; unfold inf_times.
  - left; reflexivity.
  - left. destruct (Rlt_dec 0 0); [ lra | ]. destruct (Rlt_dec 0 0); [ lra | reflexivity ].
  - right. f_equal. lra.
  - left. destruct (Rlt_dec 0 0); [ lra | ]. destruct (Rlt_dec 0 0); [ lra | reflexivity ].
Qed.

Lemma Math_round_defined (a : num) : ~ is_nan (Math_round a) -> ~ is_nan a.
Proof. destruct a; simpl; tauto. Qed.

Lemma Math_round_whole (a : num) : whole_if_finite (Math_round a).
Proof.
  unfold whole_if_finite. destruct a; simpl; try tauto. intros _. eexists; reflexivity.
Qed.

Lemma neg_whole (a : num) : whole_if_finite a -> whole_if_finite (neg a).
Proof.
  unfold whole_if_finite. destruct a as [| | x |]; simpl; try tauto.
  intros H _. apply (integer_neg (Fin x)), H. exact I.
Qed.

Lemma not_moved_by (delta p p' : num) :
  whole_gap p p' -> ~ is_integer delta -> ~ moved_by delta p p'.
Proof.
  intros H Hd (a & a' & d & Ep & Ep' & -> & E).
  destruct (H a a' Ep Ep') as (z & Ez).
  apply Hd. exists z. congruence.
Qed.

(** Each percentile is the rounded value of one of the totals. *)
Lemma percentile_in (totals : list num) (k : nat) :
  List.length totals = 500%nat -> (k < 500)%nat ->
  exists x, In x totals /\ rounded_nth (sort totals) k = Math_round x.
Proof.
  intros Hlen Hk.
  destruct (rounded_nth_some (sort totals) k) as (x & Ex & E).
  { rewrite sort_length, Hlen. exact Hk. }
  exists x. split; [ | exact E ].
  apply nth_error_In in Ex.
  eapply Permutation_in; [ apply Permutation_sym, sort_perm | exact Ex ].
Qed.

Lemma raw_total_with (i : inputs) (d : draws) :
  raw_total i d = total_with (tuition_of i) (months_of i) (scholarship_of i) i d.
Proof. apply raw_total_shape. Qed.

Lemma raw_total_months (i : inputs) (m' : num) (d : draws) :
  le (months_of i) m' ->
  ~ is_nan (raw_total i d) -> ~ is_nan (raw_total (with_months i m') d) ->
  le (raw_total i d) (raw_total (with_months i m') d).
Proof.
  intros Hm. rewrite !raw_total_shape.
  change (monthly (with_months i m') d) with (monthly i d).
  change (tuition_of (with_months i m')) with (tuition_of i).
  change (scholarship_of (with_months i m')) with (scholarship_of i).
  change (months_of (with_months i m')) with m'.
  intros Hn Hn'. apply total_of_living; [ | exact Hn | exact Hn' ].
  apply total_of_defined in Hn. apply total_of_defined in Hn'.
  destruct (monthly_floor i d) as [HM | HM].
  - exfalso. apply mul_defined in Hn. tauto.
  - apply (mul_le_r (70 + 100)); [ lra | exact HM | exact Hm | exact Hn | exact Hn' ].
Qed.

Lemma raw_total_zero_months (i : inputs) (d : draws) :
  months_of i = Fin 0 ->
  nan_or (total_of (tuition_of i) (Fin 0) (scholarship_of i)) (raw_total i d).
Proof.
  intros Hm. rewrite raw_total_shape, Hm.
  destruct (mul_zero (monthly i d)) as [-> | ->].
  - left. apply total_of_nan.
  - right. reflexivity.
Qed.

Lemma summary_whole (totals : list num) :
  List.length totals = 500%nat ->
  whole_if_finite (p10 (summary_of totals)) /\
  whole_if_finite (median (summary_of totals)) /\
  whole_if_finite (p90 (summary_of totals)).
Proof.
  intros Hlen. rewrite summary_of_500 by exact Hlen. simpl.
  repeat split; apply rounded_nth_whole.
Qed.

Lemma summary_gap (l l' : list num) :
  List.length l = 500%nat -> List.length l' = 500%nat ->
  whole_gap (p10 (summary_of l)) (p10 (summary_of l')) /\
  whole_gap (median (summary_of l)) (median (summary_of l')) /\
  whole_gap (p90 (summary_of l)) (p90 (summary_of l')).
Proof.
  intros Hl Hl'.
  destruct (summary_whole l Hl) as (A & B & C).
  destruct (summary_whole l' Hl') as (A' & B' & C').
  repeat split; apply whole_gap_of; assumption.
Qed.

Lemma summary_in (totals : list num) (P : num -> Prop) :
  List.length totals = 500%nat ->
  (forall x, In x totals -> P (Math_round x)) ->
  P (p10 (summary_of totals)) /\ P (median (summary_of totals)) /\
  P (p90 (summary_of totals)).
Proof.
  intros Hlen H. rewrite summary_of_500 by exact Hlen. simpl.
  destruct (percentile_in totals 50 Hlen) as (a & Ia & ->); [ lia | ].
  destruct (percentile_in totals 250 Hlen) as (b & Ib & ->); [ lia | ].
  destruct (percentile_in totals 450 Hlen) as (c & Ic & ->); [ lia | ].
  repeat split; apply H; assumption.
Qed.

Lemma samples_not_lower (f g : draws -> num) (ds : list draws) :
  List.length (map f ds) = 500%nat ->
  (forall d, ~ is_nan (f d) -> ~ is_nan (g d) -> le (f d) (g d)) ->
  no_nan (map f ds) -> no_nan (map g ds) ->
  not_lower (summary_of (map f ds)) (summary_of (map g ds)).
Proof.
  intros Hlen H Hf Hg. apply not_lower_samples; [ exact Hlen | ].
  apply map_guarded; assumption.
Qed.

Lemma finite_raise_scholarship (i : inputs) (z : R) :
  finite_inputs i -> finite_inputs (raise_scholarship i (Fin z)).
Proof.
  unfold finite_inputs, raise_scholarship, tuition_of, months_of, rent_of, food_of,
    transport_of, scholarship_of. simpl.
  intros (HT & Hm & Hr & Hf & Htr & Hs). repeat (split; [ assumption | ]).
  destruct (dflt (Fin 0) (scholarship i)); simpl in *; tauto.
Qed.

Lemma finite_with_months (i : inputs) (z : R) :
  finite_inputs i -> finite_inputs (with_months i (Fin z)).
Proof.
  unfold finite_inputs, with_months, tuition_of, months_of, rent_of, food_of,
    transport_of, scholarship_of. simpl.
  intros (HT & Hm & Hr & Hf & Htr & Hs). repeat split; assumption.
Qed.

(** ** C1: the percentiles of a sample without [NaN] are in order *)

(** C1, as amended.  For every input and every tape that holds the 3000
    zero-free draws of a run, the estimator returns the summary of the
    500 totals of its loop, and whenever none of these totals is [NaN]
    the three values satisfy [p10 <= median <= p90].  The order is owed
    to the end of the function alone: the summary of any sample of 500
    numbers without [NaN] is in order, whatever arithmetic has produced
    the sample. *)
Theorem percentiles_ordered (i : inputs) (t : tape) :
  (3000 <= List.length (nonzero t))%nat ->
  exists totals s t',
    ServerJs.loop i ServerJs.sims [] t = Some (totals, t') /\
    List.length totals = 500%nat /\
    ServerJs.sampleTotalsFromInputs i t = Some (s, t') /\
    s = summary_of totals /\
    (no_nan totals -> ordered s) /\
    (forall sample, List.length sample = 500%nat -> no_nan sample ->
                    ordered (summary_of sample)).
Proof.
  intros Hlen.
  destruct (run_shape i t Hlen) as (t' & H).
  destruct (H i) as (L & E & HL).
  remember (map (raw_total i) (firstn 500 (sixes (nonzero t)))) as totals eqn:Et.
  exists totals, (summary_of totals), t'.
  split; [ exact L | ]. split; [ exact HL | ]. split; [ exact E | ].
  split; [ reflexivity | ].
  split; [ apply ordered_sample; exact HL | ].
  intros sample Hs Hn. apply ordered_sample; assumption.
Qed.

Lemma percentiles_ordered_witness :
  exists s t',
    ServerJs.sampleTotalsFromInputs sample_input (half_tape 500) = Some (s, t') /\
    ordered s.
Proof.
  destruct (percentiles_ordered sample_input (half_tape 500) (half_tape_enough 500))
    as (totals & s & t' & L & _ & E & _ & H & _).
  exists s, t'. split; [ exact E | ].
  apply H, finite_no_nan.
  apply (totals_finite _ _ _ _ finite_sample_input (uniform_half_tape 500) L).
Defined.

(** ** C9: the lower bound of the totals that are numbers *)

(** C9, as amended.  For every input whose months are not negative and
    every tape that holds the draws of a run, each of the 500 trial
    totals that is not [NaN] is at least
    [tuition + (70 + 100) * months + 1500 - scholarship], the total the
    same operations give when the three clamped draws are zero; so is
    each element of the sorted sample that is not [NaN], the unrounded
    percentiles among them. *)
Theorem totals_lower_bound (i : inputs) (t : tape) :
  le (Fin 0) (months_of i) ->
  (3000 <= List.length (nonzero t))%nat ->
  exists totals t',
    ServerJs.loop i ServerJs.sims [] t = Some (totals, t') /\
    List.length totals = 500%nat /\
    Forall (above_unless_nan (floor_total i)) totals /\
    Forall (above_unless_nan (floor_total i)) (sort totals).
Proof.
  intros Hm Hlen.
  destruct (run_shape i t Hlen) as (t' & H).
  destruct (H i) as (L & _ & HL).
  remember (firstn 500 (sixes (nonzero t))) as ds eqn:Eds.
  exists (map (raw_total i) ds), t'.
  split; [ exact L | ]. split; [ exact HL | ].
  assert (Hall : Forall (above_unless_nan (floor_total i)) (map (raw_total i) ds)).
  { apply Forall_map, Forall_forall. intros d _. apply raw_total_floor. exact Hm. }
  split; [ exact Hall | ].
  eapply Permutation_Forall; [ apply sort_perm | exact Hall ].
Qed.

Lemma totals_lower_bound_witness :
  exists totals t',
    ServerJs.loop sample_input ServerJs.sims [] (half_tape 500) = Some (totals, t') /\
    Forall (le (floor_total sample_input)) totals.
Proof.
  assert (Hm : le (Fin 0) (months_of sample_input)) by (simpl; lra).
  destruct (totals_lower_bound sample_input (half_tape 500) Hm (half_tape_enough 500))
    as (totals & t' & L & _ & H & _).
  exists totals, t'. split; [ exact L | ].
  pose proof (finite_no_nan _ (totals_finite _ _ _ _ finite_sample_input
                                 (uniform_half_tape 500) L)) as Hn.
  unfold no_nan in Hn. rewrite Forall_forall in *.
  intros x Hx. apply (H x Hx), (Hn x Hx).
Defined.

(** ** C8: a higher tuition on the same draws *)

(** C8, as amended.  For every input, every amount [delta] and every
    tape that holds the draws of a run, the run with the tuition raised
    by [delta] reads the same draws and leaves the same tape; its total
    of each pass is the total of the first run with [tuition + delta]
    in place of [tuition], the monthly total, the months and the
    scholarship being the same (the tuition is not resampled).  When no
    total of either run is [NaN], none of [p10], [median], [p90] is
    lower in the second run for a [delta] that is not negative, and
    none is higher for a [delta] that is not positive.  Two finite
    percentiles of the two runs differ by a whole number; hence, for an
    amount that is not a whole number, no percentile moves by exactly
    that amount. *)
Theorem tuition_shift (i : inputs) (delta : num) (t : tape) :
  (3000 <= List.length (nonzero t))%nat ->
  exists totals totals' s s' t',
    ServerJs.loop i ServerJs.sims [] t = Some (totals, t') /\
    ServerJs.loop (raise_tuition i delta) ServerJs.sims [] t = Some (totals', t') /\
    totals = map (total_with (tuition_of i) (months_of i) (scholarship_of i) i)
                 (firstn 500 (sixes (nonzero t))) /\
    totals' = map (total_with (add (tuition_of i) delta) (months_of i)
                              (scholarship_of i) i)
                  (firstn 500 (sixes (nonzero t))) /\
    ServerJs.sampleTotalsFromInputs i t = Some (s, t') /\
    ServerJs.sampleTotalsFromInputs (raise_tuition i delta) t = Some (s', t') /\
    (le (Fin 0) delta -> no_nan totals -> no_nan totals' -> not_lower s s') /\
    (le delta (Fin 0) -> no_nan totals -> no_nan totals' -> not_lower s' s) /\
    whole_gap (p10 s) (p10 s') /\ whole_gap (median s) (median s') /\
    whole_gap (p90 s) (p90 s') /\
    (~ is_integer delta ->
     ~ moved_by delta (p10 s) (p10 s') /\ ~ moved_by delta (median s) (median s') /\
     ~ moved_by delta (p90 s) (p90 s')).
Proof.
  intros Hlen.
  destruct (run_shape i t Hlen) as (t' & H).
  destruct (H i) as (L & E & HL).
  destruct (H (raise_tuition i delta)) as (L' & E' & HL').
  remember (firstn 500 (sixes (nonzero t))) as ds eqn:Eds.
  assert (Ht : map (raw_total i) ds
               = map (total_with (tuition_of i) (months_of i) (scholarship_of i) i) ds).
  { apply map_ext. intros d. apply raw_total_with. }
  assert (Ht' : map (raw_total (raise_tuition i delta)) ds
                = map (total_with (add (tuition_of i) delta) (months_of i)
                                  (scholarship_of i) i) ds).
  { apply map_ext. intros d. rewrite raw_total_with. reflexivity. }
  exists (map (raw_total i) ds), (map (raw_total (raise_tuition i delta)) ds),
    (summary_of (map (raw_total i) ds)),
    (summary_of (map (raw_total (raise_tuition i delta)) ds)), t'.
  split; [ exact L | ]. split; [ exact L' | ]. split; [ exact Ht | ].
  split; [ exact Ht' | ]. split; [ exact E | ]. split; [ exact E' | ].
  destruct (summary_gap _ _ HL HL') as (G10 & G50 & G90).
  split; [ | split; [ | split; [ exact G10 | split; [ exact G50 | split;
                                                       [ exact G90 | ] ] ] ] ].
  - intros Hd. apply samples_not_lower; [ exact HL | ].
    intros d. rewrite !raw_total_shape. apply total_of_tuition. exact Hd.
  - intros Hd Hn Hn'. apply samples_not_lower; [ exact HL' | | exact Hn' | exact Hn ].
    intros d Hx Hy. revert Hy Hx. rewrite !raw_total_shape.
    apply total_of_tuition_down. exact Hd.
  - intros Hd. repeat split; apply not_moved_by; assumption.
Qed.

Lemma tuition_shift_witness :
  exists s s' t',
    ServerJs.sampleTotalsFromInputs sample_input (half_tape 500) = Some (s, t') /\
    ServerJs.sampleTotalsFromInputs (raise_tuition sample_input (Fin 100))
                                    (half_tape 500) = Some (s', t') /\
    not_lower s s' /\ whole_gap (p10 s) (p10 s').
Proof.
  destruct (tuition_shift sample_input (Fin 100) (half_tape 500) (half_tape_enough 500))
    as (totals & totals' & s & s' & t' & L & L' & _ & _ & E & E' & Hup & _ & G & _).
  exists s, s', t'. split; [ exact E | ]. split; [ exact E' | ]. split; [ | exact G ].
  apply Hup.
  - simpl. lra.
  - apply finite_no_nan.
    apply (totals_finite _ _ _ _ finite_sample_input (uniform_half_tape 500) L).
  - apply finite_no_nan.
    apply (totals_finite _ _ _ _ (finite_raise_tuition _ 100 finite_sample_input)
             (uniform_half_tape 500) L').
Defined.

(** ** More on the percentiles *)

(** X5.  Each of [p10], [median] and [p90] is a whole number unless it
    is [NaN] or infinite, and all three are whole numbers when every
    total of the run is finite: each is [Math.round] of one of the
    totals. *)
Theorem percentiles_whole (i : inputs) (t : tape) :
  (3000 <= List.length (nonzero t))%nat ->
  exists totals s t',
    ServerJs.loop i ServerJs.sims [] t = Some (totals, t') /\
    ServerJs.sampleTotalsFromInputs i t = Some (s, t') /\
    whole_if_finite (p10 s) /\ whole_if_finite (median s) /\ whole_if_finite (p90 s) /\
    (Forall is_finite totals ->
     is_integer (p10 s) /\ is_integer (median s) /\ is_integer (p90 s)).
Proof.
  intros Hlen.
  destruct (run_shape i t Hlen) as (t' & H).
  destruct (H i) as (L & E & HL).
  remember (map (raw_total i) (firstn 500 (sixes (nonzero t)))) as totals eqn:Et.
  exists totals, (summary_of totals), t'.
  split; [ exact L | ]. split; [ exact E | ].
  destruct (summary_whole totals HL) as (A & B & C).
  split; [ exact A | ]. split; [ exact B | ]. split; [ exact C | ].
  intros Hfin. apply (summary_in totals is_integer HL).
  intros x Hx. apply Math_round_integer.
  rewrite Forall_forall in Hfin. apply Hfin, Hx.
Qed.

Lemma percentiles_whole_witness :
  exists s t',
    ServerJs.sampleTotalsFromInputs sample_input (half_tape 500) = Some (s, t') /\
    is_integer (p10 s) /\ is_integer (median s) /\ is_integer (p90 s).
Proof.
  destruct (percentiles_whole sample_input (half_tape 500) (half_tape_enough 500))
    as (totals & s & t' & L & E & _ & _ & _ & H).
  exists s, t'. split; [ exact E | ].
  apply H.
  apply (totals_finite _ _ _ _ finite_sample_input (uniform_half_tape 500) L).
Defined.

(** X6.  Raising the scholarship by an amount that is not negative, on
    the same draws, raises none of [p10], [median] and [p90] when no
    total of either run is [NaN]; the second run reads the same draws,
    and its totals are those of the first with [scholarship + delta]
    in place of [scholarship]. *)
Theorem scholarship_raise (i : inputs) (delta : num) (t : tape) :
  le (Fin 0) delta ->
  (3000 <= List.length (nonzero t))%nat ->
  exists totals totals' s s' t',
    ServerJs.loop i ServerJs.sims [] t = Some (totals, t') /\
    ServerJs.loop (raise_scholarship i delta) ServerJs.sims [] t = Some (totals', t') /\
    totals' = map (total_with (tuition_of i) (months_of i)
                              (add (scholarship_of i) delta) i)
                  (firstn 500 (sixes (nonzero t))) /\
    ServerJs.sampleTotalsFromInputs i t = Some (s, t') /\
    ServerJs.sampleTotalsFromInputs (raise_scholarship i delta) t = Some (s', t') /\
    (no_nan totals -> no_nan totals' -> not_lower s' s).
Proof.
  intros Hd Hlen.
  destruct (run_shape i t Hlen) as (t' & H).
  destruct (H i) as (L & E & HL).
  destruct (H (raise_scholarship i delta)) as (L' & E' & HL').
  remember (firstn 500 (sixes (nonzero t))) as ds eqn:Eds.
  exists (map (raw_total i) ds), (map (raw_total (raise_scholarship i delta)) ds),
    (summary_of (map (raw_total i) ds)),
    (summary_of (map (raw_total (raise_scholarship i delta)) ds)), t'.
  split; [ exact L | ]. split; [ exact L' | ].
  split; [ apply map_ext; intros d; rewrite raw_total_with; reflexivity | ].
  split; [ exact E | ]. split; [ exact E' | ].
  intros Hn Hn'. apply samples_not_lower; [ exact HL' | | exact Hn' | exact Hn ].
  intros d Hx Hy. revert Hy Hx. rewrite !raw_total_shape.
  apply total_of_scholarship. exact Hd.
Qed.

Lemma scholarship_raise_witness :
  exists s s' t',
    ServerJs.sampleTotalsFromInputs sample_input (half_tape 500) = Some (s, t') /\
    ServerJs.sampleTotalsFromInputs (raise_scholarship sample_input (Fin 1000))
                                    (half_tape 500) = Some (s', t') /\
    not_lower s' s.
Proof.
  assert (Hd : le (Fin 0) (Fin 1000)) by (simpl; lra).
  destruct (scholarship_raise sample_input (Fin 1000) (half_tape 500) Hd
              (half_tape_enough 500))
    as (totals & totals' & s & s' & t' & L & L' & _ & E & E' & H).
  exists s, s', t'. split; [ exact E | ]. split; [ exact E' | ].
  apply H.
  - apply finite_no_nan.
    apply (totals_finite _ _ _ _ finite_sample_input (uniform_half_tape 500) L).
  - apply finite_no_nan.
    apply (totals_finite _ _ _ _ (finite_raise_scholarship _ 1000 finite_sample_input)
             (uniform_half_tape 500) L').
Defined.

(** X7.  For every input whose months are not negative, each of
    [p10], [median] and [p90] that is not [NaN] is at least
    [Math.round(tuition + (70 + 100) * months + 1500 - scholarship)]:
    rounding keeps the lower bound of the totals. *)
Theorem percentiles_above_floor (i : inputs) (t : tape) :
  le (Fin 0) (months_of i) ->
  (3000 <= List.length (nonzero t))%nat ->
  exists s t',
    ServerJs.sampleTotalsFromInputs i t = Some (s, t') /\
    above_unless_nan (Math_round (floor_total i)) (p10 s) /\
    above_unless_nan (Math_round (floor_total i)) (median s) /\
    above_unless_nan (Math_round (floor_total i)) (p90 s).
Proof.
  intros Hm Hlen.
  destruct (run_shape i t Hlen) as (t' & H).
  destruct (H i) as (_ & E & HL).
  remember (firstn 500 (sixes (nonzero t))) as ds eqn:Eds.
  exists (summary_of (map (raw_total i) ds)), t'.
  split; [ exact E | ].
  apply (summary_in _ (above_unless_nan (Math_round (floor_total i))) HL).
  intros x Hx Hn. apply Math_round_le.
  apply in_map_iff in Hx. destruct Hx as (d & <- & _).
  apply raw_total_floor; [ exact Hm | ].
  apply Math_round_defined. exact Hn.
Qed.

Lemma percentiles_above_floor_witness :
  exists s t',
    ServerJs.sampleTotalsFromInputs sample_input (half_tape 500) = Some (s, t') /\
    above_unless_nan (Math_round (floor_total sample_input)) (p10 s) /\
    above_unless_nan (Math_round (floor_total sample_input)) (median s) /\
    above_unless_nan (Math_round (floor_total sample_input)) (p90 s).
Proof.
  apply (percentiles_above_floor sample_input (half_tape 500)).
  - simpl. lra.
  - apply (half_tape_enough 500).
Defined.

(** X8.  Called with months = 0, the estimator returns for each of
    [p10], [median] and [p90] either [NaN] or
    [Math.round(tuition + 0 + 1500 - scholarship)], whatever the draws
    and the rent, food and transport figures: a monthly total times
    zero is zero, or [NaN] when the monthly total is infinite. *)
Theorem zero_months_percentiles (i : inputs) (t : tape) :
  months_of i = Fin 0 ->
  (3000 <= List.length (nonzero t))%nat ->
  exists s t',
    ServerJs.sampleTotalsFromInputs i t = Some (s, t') /\
    nan_or (Math_round (total_of (tuition_of i) (Fin 0) (scholarship_of i))) (p10 s) /\
    nan_or (Math_round (total_of (tuition_of i) (Fin 0) (scholarship_of i))) (median s) /\
    nan_or (Math_round (total_of (tuition_of i) (Fin 0) (scholarship_of i))) (p90 s).
Proof.
  intros Hm Hlen.
  destruct (run_shape i t Hlen) as (t' & H).
  destruct (H i) as (_ & E & HL).
  remember (firstn 500 (sixes (nonzero t))) as ds eqn:Eds.
  exists (summary_of (map (raw_total i) ds)), t'.
  split; [ exact E | ].
  apply (summary_in _ (nan_or (Math_round (total_of (tuition_of i) (Fin 0)
                                                   (scholarship_of i)))) HL).
  intros x Hx. apply in_map_iff in Hx. destruct Hx as (d & <- & _).
  destruct (raw_total_zero_months i d Hm) as [-> | ->].
  - left. reflexivity.
  - right. reflexivity.
Qed.

Lemma zero_months_percentiles_witness :
  exists s t',
    ServerJs.sampleTotalsFromInputs zero_months_input (half_tape 500) = Some (s, t') /\
    nan_or (Fin 16500) (p10 s) /\ nan_or (Fin 16500) (median s) /\
    nan_or (Fin 16500) (p90 s).
Proof.
  assert (Hc : Math_round (total_of (tuition_of zero_months_input) (Fin 0)
                                    (scholarship_of zero_months_input)) = Fin 16500).
  { simpl. f_equal. change 16500 with (IZR 16500). f_equal.
    unfold Int_part.
    rewrite <- (tech_up (20000 + 0 + 1500 + - (5000) + / 2) 16501) by lra.
    reflexivity. }
  rewrite <- Hc.
  apply (zero_months_percentiles zero_months_input (half_tape 500)).
  - reflexivity.
  - apply (half_tape_enough 500).
Defined.

(** X20.  Replacing the months by a number that is not smaller, on the
    same draws, lowers none of [p10], [median] and [p90] when no total
    of either run is [NaN]: the monthly total of a pass, which does not
    depend on the months, is at least 170, so each total grows, and
    order statistics respect the pointwise order of two samples. *)
Theorem months_monotone (i : inputs) (m' : num) (t : tape) :
  le (months_of i) m' ->
  (3000 <= List.length (nonzero t))%nat ->
  exists totals totals' s s' t',
    ServerJs.loop i ServerJs.sims [] t = Some (totals, t') /\
    ServerJs.loop (with_months i m') ServerJs.sims [] t = Some (totals', t') /\
    ServerJs.sampleTotalsFromInputs i t = Some (s, t') /\
    ServerJs.sampleTotalsFromInputs (with_months i m') t = Some (s', t') /\
    (no_nan totals -> no_nan totals' -> not_lower s s').
Proof.
  intros Hm Hlen.
  destruct (run_shape i t Hlen) as (t' & H).
  destruct (H i) as (L & E & HL).
  destruct (H (with_months i m')) as (L' & E' & HL').
  remember (firstn 500 (sixes (nonzero t))) as ds eqn:Eds.
  exists (map (raw_total i) ds), (map (raw_total (with_months i m')) ds),
    (summary_of (map (raw_total i) ds)),
    (summary_of (map (raw_total (with_months i m')) ds)), t'.
  split; [ exact L | ]. split; [ exact L' | ]. split; [ exact E | ].
  split; [ exact E' | ].
  apply samples_not_lower; [ exact HL | ].
  intros d. apply raw_total_months. exact Hm.
Qed.

Lemma months_monotone_witness :
  exists s s' t',
    ServerJs.sampleTotalsFromInputs sample_input (half_tape 500) = Some (s, t') /\
    ServerJs.sampleTotalsFromInputs (with_months sample_input (Fin 24))
                                    (half_tape 500) = Some (s', t') /\
    not_lower s s'.
Proof.
  assert (Hm : le (months_of sample_input) (Fin 24)) by (simpl; lra).
  destruct (months_monotone sample_input (Fin 24) (half_tape 500) Hm
              (half_tape_enough 500))
    as (totals & totals' & s & s' & t' & L & L' & E & E' & H).
  exists s, s', t'. split; [ exact E | ]. split; [ exact E' | ].
  apply H.
  - apply finite_no_nan.
    apply (totals_finite _ _ _ _ finite_sample_input (uniform_half_tape 500) L).
  - apply finite_no_nan.
    apply (totals_finite _ _ _ _ (finite_with_months _ 24 finite_sample_input)
             (uniform_half_tape 500) L').
Defined.

(** ** More on the response *)

(** X16.  When no conversion throws, the handler of [server.js]
    answers with a response, not status 500, in which every amount is a
    whole number unless it is [NaN] or infinite (the rounded tuition,
    [living_median], minus the rounded scholarship, the three
    percentiles, the four amounts of the breakdown), [one_time] is
    1500 and [months] is the coerced months. *)
Theorem response_amounts_whole (S2N : string -> num) (TP : jsval -> option string)
        (JP : text -> option jsval) (req_body : jsval) (ai : ai_result)
        (i : inputs) (t : tape) :
  handler_inputs S2N TP req_body = Some i ->
  (3000 <= List.length (nonzero t))%nat ->
  exists r t',
    handler S2N TP JP req_body ai t = Some (Json r, t') /\
    whole_if_finite (est_tuition (estimate_of r)) /\
    whole_if_finite (living_median (estimate_of r)) /\
    one_time (estimate_of r) = Fin 1500 /\
    whole_if_finite (scholarships (estimate_of r)) /\
    whole_if_finite (total_p10 (estimate_of r)) /\
    whole_if_finite (total_median (estimate_of r)) /\
    whole_if_finite (total_p90 (estimate_of r)) /\
    est_months (estimate_of r) = months_of i /\
    Forall (fun entry => whole_if_finite (snd entry)) (breakdown r).
Proof.
  intros Hb Hlen.
  destruct (run_shape i t Hlen) as (t' & H).
  destruct (H i) as (_ & E & HL).
  remember (map (raw_total i) (firstn 500 (sixes (nonzero t)))) as totals eqn:Et.
  destruct (summary_whole totals HL) as (A & B & C).
  exists (response_of i (summary_of totals) (ServerTips.recommendations JP ai)), t'.
  split.
  { unfold handler. rewrite Hb. unfold bind, ret. rewrite E. reflexivity. }
  assert (IT : whole_if_finite (Math_round (tuition_of i)))
    by apply Math_round_whole.
  assert (IS : whole_if_finite (neg (Math_round (scholarship_of i))))
    by apply neg_whole, Math_round_whole.
  assert (IL : whole_if_finite (livingMedian i)) by apply Math_round_whole.
  assert (IO : whole_if_finite (add (add (Fin 200) (Fin 800)) (Fin 500))).
  { intros _. exists 1500%Z. apply integer_one_time. }
  simpl. repeat split; try assumption.
  - f_equal. lra.
  - repeat constructor; assumption.
Qed.

Lemma response_amounts_whole_witness :
  exists r t',
    handler no_string no_object (fun _ => None) sample_body NotConfigured (half_tape 500)
    = Some (Json r, t') /\
    whole_if_finite (total_p10 (estimate_of r)) /\
    one_time (estimate_of r) = Fin 1500 /\
    Forall (fun entry => whole_if_finite (snd entry)) (breakdown r).
Proof.
  assert (Hb : handler_inputs no_string no_object sample_body = Some sample_input).
  { unfold sample_body.
    apply (coerce_sample_body no_string no_object). }
  destruct (response_amounts_whole no_string no_object (fun _ => None) sample_body
              NotConfigured sample_input (half_tape 500) Hb (half_tape_enough 500))
    as (r & t' & E & _ & _ & H1 & _ & H2 & _ & _ & _ & H3).
  exists r, t'. repeat split; assumption.
Defined.
